(** * Duri search system: aggregation, confidence and diversity selection

    Shallow embedding of [FlexibleSearchSystem] (search_system_v4.py):
    [search_all_namespaces], [calculate_confidence_level],
    [select_diverse_results] and [search_and_answer].

    Python floats are IEEE 754 binary64 numbers; they are modelled by the
    standard library's executable specification [spec_float] at precision 53
    and maximal exponent 1024, so NaN, infinities and rounding behave as in
    the interpreter. *)

From Stdlib Require Import ZArith List Bool String Lia Sorted.
From Stdlib Require Import Floats.SpecFloat.
From stdpp Require Import gmap strings list.

Local Open Scope string_scope.
Local Open Scope list_scope.
Local Open Scope Z_scope.

(** ** Python floats *)

Module PyFloat.

Definition prec : Z := 53.
Definition emax : Z := 1024.

Definition float : Type := spec_float.

Definition fmul : float -> float -> float := SFmul prec emax.
Definition fadd : float -> float -> float := SFadd prec emax.
Definition fsub : float -> float -> float := SFsub prec emax.
Definition fdiv : float -> float -> float := SFdiv prec emax.
Definition fsqrt : float -> float := SFsqrt prec emax.

(** [x < y], [x <= y], [x >= y], [x == y]: every comparison with a NaN
    operand is false. *)
Definition flt (x y : float) : bool := SFltb x y.
Definition fle (x y : float) : bool := SFleb x y.
Definition fge (x y : float) : bool := SFleb y x.
Definition feq (x y : float) : bool := SFeqb x y.

Definition is_nan (x : float) : bool :=
  match x with S754_nan => true | _ => false end.

Definition is_finite (x : float) : bool :=
  match x with S754_zero _ | S754_finite _ _ _ => true | _ => false end.

(** [float(z)] for an integer that binary64 represents exactly. *)
Definition of_Z (z : Z) : float := binary_normalize prec emax z 0 false.

(** A decimal literal [n / d]: the interpreter reads a literal as the
    binary64 number nearest to its decimal value, which is what the
    correctly rounded quotient of two exact integers is. *)
Definition literal (n d : Z) : float := fdiv (of_Z n) (of_Z d).

Definition f0_0 : float := S754_zero false.
Definition f0_8 : float := Eval vm_compute in literal 8 10.
Definition f0_6 : float := Eval vm_compute in literal 6 10.
Definition f0_4 : float := Eval vm_compute in literal 4 10.
Definition f0_1 : float := Eval vm_compute in literal 1 10.
Definition f0_05 : float := Eval vm_compute in literal 5 100.
Definition f1_2 : float := Eval vm_compute in literal 12 10.
Definition f1_0 : float := Eval vm_compute in of_Z 1.
Definition f0_9 : float := Eval vm_compute in literal 9 10.

(** Position of a float on the extended real line, as a triple compared
    lexicographically: sign class, then exponent, then mantissa (both
    negated below zero). Both zeros share one position. *)
Definition key (x : float) : Z * Z * Z :=
  match x with
  | S754_infinity true => (-2, 0, 0)
  | S754_finite true m e => (-1, - e, Z.neg m)
  | S754_zero _ => (0, 0, 0)
  | S754_nan => (0, 0, 0)
  | S754_finite false m e => (1, e, Z.pos m)
  | S754_infinity false => (2, 0, 0)
  end.

Definition lex_compare (a b : Z * Z * Z) : comparison :=
  let '(a1, a2, a3) := a in
  let '(b1, b2, b3) := b in
  match a1 ?= b1 with
  | Eq => match a2 ?= b2 with Eq => a3 ?= b3 | c => c end
  | c => c
  end.

Definition lex_lt (a b : Z * Z * Z) : Prop :=
  let '(a1, a2, a3) := a in
  let '(b1, b2, b3) := b in
  a1 < b1 \/ (a1 = b1 /\ (a2 < b2 \/ (a2 = b2 /\ a3 < b3))).

End PyFloat.

Import PyFloat.

#[global] Instance float_eq_dec : EqDecision spec_float.
Proof. solve_decision. Defined.

(** ** Python values used by the search system *)

(** [len(l)] as a Python integer. *)
Definition len {A : Type} (l : list A) : Z := Z.of_nat (length l).

(** The slice [l[:k]]: a negative [k] counts from the end of the list. *)
Definition slice_to {A : Type} (l : list A) (k : Z) : list A :=
  if k <? 0 then firstn (Z.to_nat (len l + k)) l else firstn (Z.to_nat k) l.

(** A call that either returns a value or raises an exception. *)
Definition Exception : Type := string.

Inductive PyResult (A : Type) : Type :=
| Return (a : A)
| Raise (e : Exception).

Arguments Return {A} a.
Arguments Raise {A} e.

(** A value that is a Python [int] or a Python [float]. *)
Inductive number : Type :=
| Int (z : Z)
| Float (f : float).

(** ** Data model *)

(** The metadata of a vector: a dictionary, here from field names to the
    text of their values. It is an opaque payload for ranking, confidence
    and selection. *)
Abbreviation Metadata := (gmap string string).

(** One entry of [response['matches']] as the vector index returns it. *)
Record Match : Type := {
  match_id : string;
  match_score : float;
  match_metadata : Metadata
}.

(** One value of [self.namespace_configs]. *)
Record NamespaceConfig : Type := {
  weight : float;
  top_k : Z;
  description : string
}.

(** The dictionary built per match in [search_all_namespaces]. *)
Record Result : Type := {
  id : string;
  score : float;
  weighted_score : float;
  namespace : string;
  namespace_desc : string;
  metadata : Metadata
}.

(** [self.namespace_configs]: a dictionary iterates in insertion order, so
    it is kept as the list of its items. *)
Definition namespace_configs : list (string * NamespaceConfig) :=
  [ ("faq", {| weight := f1_2; top_k := 3; description := "FAQ" |});
    ("dictionary", {| weight := f1_0; top_k := 2; description := "용어사전" |});
    ("concept", {| weight := f0_9; top_k := 2; description := "개념설명" |});
    ("chunk", {| weight := f0_8; top_k := 2; description := "교과서" |}) ].

(** The external collaborators of one [FlexibleSearchSystem] object.
    [embeddings_create query] stands for
    [openai_client.embeddings.create(...).data[0].embedding],
    [index_query vector top_k namespace] for
    [index.query(...)['matches']], and [chat_completion query results
    confidence] for the body of the [try] block of
    [generate_composite_answer] up to [message.content]. Each may raise. *)
Record Services : Type := {
  embeddings_create : string -> PyResult (list float);
  index_query : list float -> Z -> string -> PyResult (list Match);
  chat_completion : string -> list Result -> string -> PyResult string
}.

(** ** [list.sort(key=..., reverse=True)]

    The interpreter's sort is stable and compares keys with [<] only; for a
    reverse sort it reverses the list, sorts it in ascending order and
    reverses the outcome. The ascending sort is modelled by a stable
    insertion sort: an element moves past exactly the elements whose key is
    strictly smaller than its own. When no key is NaN the keys are totally
    preordered and every stable sort gives this list. With a NaN key the
    interpreter's run detection and binary insertion can give another
    order, so the model stands for the interpreter on lists without NaN
    keys, and on the short lists with a NaN key that are traced by hand
    where they are used. *)
Section Sort.
Context {A : Type} (sort_key : A -> float).

Fixpoint insert_sorted (x : A) (l : list A) : list A :=
  match l with
  | [] => [x]
  | y :: l' =>
      if flt (sort_key y) (sort_key x) then y :: insert_sorted x l'
      else x :: y :: l'
  end.

Definition stable_sort (l : list A) : list A := foldr insert_sorted [] l.

Definition sort_reverse (l : list A) : list A := rev (stable_sort (rev l)).
End Sort.

(** ** [search_all_namespaces] *)

Definition make_result (namespace : string) (config : NamespaceConfig)
    (m : Match) : Result :=
  {| id := match_id m;
     score := match_score m;
     weighted_score := fmul (match_score m) (weight config);
     namespace := namespace;
     namespace_desc := description config;
     metadata := match_metadata m |}.

(** One round of the loop over [namespace_configs.items()]: a query that
    raises leaves [all_results] as it is ([continue]). The matches of a
    response are well-formed records, so building a result does not raise. *)
Definition search_namespace (svc : Services) (query_embedding : list float)
    (all_results : list Result) (item : string * NamespaceConfig)
    : list Result :=
  let '(namespace, config) := item in
  match index_query svc query_embedding (top_k config) namespace with
  | Return matches => all_results ++ map (make_result namespace config) matches
  | Raise _ => all_results
  end.

(** What one partition adds to [all_results]: its matches in the order the
    query returned them, or nothing when the query raised. *)
Definition namespace_results (svc : Services) (query_embedding : list float)
    (item : string * NamespaceConfig) : list Result :=
  search_namespace svc query_embedding [] item.

(** A match as the index may hand it over: the ['score'] key can be
    missing. *)
Record RawMatch : Type := {
  raw_id : string;
  raw_score : option float;
  raw_metadata : Metadata
}.

(** A well-formed match seen as a raw one. *)
Definition raw_of (m : Match) : RawMatch :=
  {| raw_id := match_id m;
     raw_score := Some (match_score m);
     raw_metadata := match_metadata m |}.

(** Building the dictionary of one match: [match['score']] raises
    [KeyError] when the key is missing. *)
Definition build_result (namespace : string) (config : NamespaceConfig)
    (m : RawMatch) : PyResult Result :=
  match raw_score m with
  | Some s =>
      Return (make_result namespace config
                {| match_id := raw_id m;
                   match_score := s;
                   match_metadata := raw_metadata m |})
  | None => Raise "KeyError: 'score'"
  end.

(** The loop [for match in response['matches']] inside the [try] block: an
    exception leaves the loop, and the [except] clause goes on to the next
    partition with what [all_results] holds by then. *)
Fixpoint append_results (namespace : string) (config : NamespaceConfig)
    (all_results : list Result) (matches : list RawMatch) : list Result :=
  match matches with
  | [] => all_results
  | m :: matches' =>
      match build_result namespace config m with
      | Return result =>
          append_results namespace config (all_results ++ [result]) matches'
      | Raise _ => all_results
      end
  end.

(** [all_results] when the loop ends, before it is sorted. *)
Definition collect_results (configs : list (string * NamespaceConfig))
    (svc : Services) (query_embedding : list float) : list Result :=
  fold_left (search_namespace svc query_embedding) configs [].

Definition search_all_namespaces (configs : list (string * NamespaceConfig))
    (svc : Services) (query_embedding : list float) : list Result :=
  sort_reverse weighted_score (collect_results configs svc query_embedding).

(** ** [calculate_confidence_level] *)

(** [numpy.sum] of a short one-dimensional array: the elements are added
    from left to right. *)
Definition np_sum (a : list float) : float :=
  match a with
  | [] => f0_0
  | x :: a' => fold_left fadd a' x
  end.

(** [numpy.std]: the population standard deviation,
    [sqrt(sum((a - mean)^2) / n)]. *)
Definition np_std (a : list float) : float :=
  let n := of_Z (len a) in
  let arrmean := fdiv (np_sum a) n in
  let x := map (fun v => fsub v arrmean) a in
  let x := map (fun v => fmul v v) x in
  fsqrt (fdiv (np_sum x) n).

(** The chain of [if]/[elif] on [best_score]. *)
Definition confidence_of (best_score : float) : string :=
  if fge best_score f0_8 then "high"
  else if fge best_score f0_6 then "medium"
  else if fge best_score f0_4 then "low"
  else "very_low".

Definition calculate_confidence_level (results : list Result)
    : string * float :=
  match results with
  | [] => ("none", f0_0)
  | r0 :: _ =>
      let best_score := weighted_score r0 in
      let confidence := confidence_of best_score in
      let confidence_score :=
        if 2 <=? len results then
          let score_variance :=
            np_std (map weighted_score (firstn 3 results)) in
          if flt score_variance f0_1 then fadd best_score f0_05
          else best_score
        else best_score in
      (confidence, confidence_score)
  end.

(** ** [select_diverse_results] *)

(** [a == b] on two values held by a dictionary: the same object, or equal
    numbers. The model does not tell two objects of equal content apart, so
    two NaN values count as equal here, while the interpreter finds two
    distinct NaN objects unequal. The two agree on lists whose entries have
    distinct keys (partition and identifier). *)
Definition value_eq (a b : float) : bool := bool_decide (a = b) || feq a b.

(** [a == b] on two result dictionaries: the same keys with equal values. *)
Definition dict_eq (a b : Result) : bool :=
  bool_decide (id a = id b)
  && value_eq (score a) (score b)
  && value_eq (weighted_score a) (weighted_score b)
  && bool_decide (namespace a = namespace b)
  && bool_decide (namespace_desc a = namespace_desc b)
  && bool_decide (metadata a = metadata b).

(** [r in l]. *)
Definition py_in (r : Result) (l : list Result) : bool := existsb (dict_eq r) l.

(** [namespace_count[ns]] on a [defaultdict(int)]. *)
Definition count_of (namespace_count : gmap string nat) (ns : string) : nat :=
  default 0%nat (namespace_count !! ns).

(** [namespace_count[ns] += 1]. *)
Definition count_incr (namespace_count : gmap string nat) (ns : string)
    : gmap string nat :=
  <[ns := S (count_of namespace_count ns)]> namespace_count.

(** The loop [for result in candidates], with its [break]. *)
Fixpoint diversity_loop (max_results : Z) (candidates : list Result)
    (selected : list Result) (namespace_count : gmap string nat)
    : list Result * gmap string nat :=
  match candidates with
  | [] => (selected, namespace_count)
  | result :: candidates' =>
      if len selected >=? max_results then (selected, namespace_count)
      else if (count_of namespace_count (namespace result) <? 2)%nat then
        diversity_loop max_results candidates' (selected ++ [result])
          (count_incr namespace_count (namespace result))
      else diversity_loop max_results candidates' selected namespace_count
  end.

(** The state after the diversity loop: [selected] and [namespace_count]
    before the backfill. [results] is not empty here: [best_result] is
    [results[0]] and [rest] is [results[1:]]. *)
Definition diversity_pass (best_result : Result) (rest : list Result)
    (max_results : Z) : list Result * gmap string nat :=
  let selected := [best_result] in
  let namespace_count := count_incr ∅ (namespace best_result) in
  let threshold := fmul (weighted_score best_result) f0_8 in
  let candidates :=
    List.filter (fun r => fge (weighted_score r) threshold) rest in
  diversity_loop max_results candidates selected namespace_count.

(** The backfill: [selected.extend(remaining[:max_results - len(selected)])]
    when [selected] is short. *)
Definition backfill (results selected : list Result) (max_results : Z)
    : list Result :=
  if len selected <? max_results then
    let remaining := List.filter (fun r => negb (py_in r selected)) results in
    selected ++ slice_to remaining (max_results - len selected)
  else selected.

Definition select_diverse_results (results : list Result) (max_results : Z)
    : list Result :=
  match results with
  | [] => []
  | best_result :: rest =>
      let '(selected, _) := diversity_pass best_result rest max_results in
      slice_to (backfill results selected max_results) max_results
  end.

(** The key of a match in the data model: its partition and its
    identifier, unique within the partition. *)
Definition result_key (r : Result) : string * string := (namespace r, id r).

(** How many entries of [l] come from partition [ns]. *)
Definition count_ns (ns : string) (l : list Result) : nat :=
  length (List.filter (fun r => bool_decide (namespace r = ns)) l).

(** ** [search_and_answer] *)

(** The dictionary that [search_and_answer] returns. The early return has
    no ['sources'] key. *)
Record Response : Type := {
  query : string;
  answer : string;
  confidence : string;
  confidence_score : number;
  results : list Result;
  sources : option (list string);
  execution_time : float
}.

(** [create_query_embedding]: the [except] clause re-raises. *)
Definition create_query_embedding (svc : Services) (query : string)
    : PyResult (list float) :=
  match embeddings_create svc query with
  | Return embedding => Return embedding
  | Raise e => Raise e
  end.

(** The line feed character as a string. *)
Definition newline : string := String (Ascii.ascii_of_nat 10) EmptyString.

(** [confidence_messages.get(confidence, default)] with the empty string as
    default. *)
Definition confidence_message (confidence : string) : string :=
  if bool_decide (confidence = "very_low") then
    String.append newline (String.append newline
      "💭 참고로 이 답변은 관련 정보가 부족해서 정확하지 않을 수 있어요. 선생님께 확인해보는 것이 좋겠어요!")
  else if bool_decide (confidence = "low") then
    String.append newline (String.append newline
      "💡 이 정보가 도움이 되었으면 좋겠어요. 더 궁금한 점이 있다면 선생님께 물어보세요!")
  else EmptyString.

(** [generate_composite_answer]: any exception inside the [try] block gives
    the fixed apology. *)
Definition generate_composite_answer (svc : Services) (query : string)
    (results : list Result) (confidence : string) : string :=
  match chat_completion svc query results confidence with
  | Return answer => String.append answer (confidence_message confidence)
  | Raise _ => "답변을 생성하는 중에 문제가 발생했어요. 다시 시도해주세요."
  end.

Definition not_found_answer : string :=
  "관련 정보를 찾을 수 없어요. 다른 질문을 해보시거나 선생님께 여쭤보세요.".

(** [search_and_answer]. The two readings of the clock are an input: the
    caller passes their difference in seconds. Printing is left out. *)
Definition search_and_answer (configs : list (string * NamespaceConfig))
    (svc : Services) (elapsed : float) (query : string) : PyResult Response :=
  match create_query_embedding svc query with
  | Raise e => Raise e
  | Return query_embedding =>
      let all_results := search_all_namespaces configs svc query_embedding in
      match all_results with
      | [] =>
          Return {| query := query;
                    answer := not_found_answer;
                    confidence := "none";
                    confidence_score := Int 0;
                    results := [];
                    sources := None;
                    execution_time := elapsed |}
      | _ :: _ =>
          let '(confidence, confidence_score) :=
            calculate_confidence_level all_results in
          let selected_results := select_diverse_results all_results 3 in
          let answer :=
            generate_composite_answer svc query selected_results confidence in
          Return {| query := query;
                    answer := answer;
                    confidence := confidence;
                    confidence_score := Float confidence_score;
                    results := selected_results;
                    sources := Some (map namespace_desc selected_results);
                    execution_time := elapsed |}
      end
  end.

(** ** Concrete inputs *)

Module Examples.

Definition a_match (i : string) (s : float) : Match :=
  {| match_id := i; match_score := s; match_metadata := ∅ |}.

Definition a_result (i ns : string) (ws : float) : Result :=
  {| id := i; score := ws; weighted_score := ws; namespace := ns;
     namespace_desc := ns; metadata := ∅ |}.

Definition f0_85 : float := Eval vm_compute in literal 85 100.
Definition f0_83 : float := Eval vm_compute in literal 83 100.
Definition f0_5 : float := Eval vm_compute in literal 5 10.
Definition f0_81 : float := Eval vm_compute in literal 81 100.
Definition f0_79 : float := Eval vm_compute in literal 79 100.
Definition f0_7 : float := Eval vm_compute in literal 7 10.
Definition f0_3 : float := Eval vm_compute in literal 3 10.

(** One match in each of three partitions (raw scores 0.85, 0.83 and 0.5),
    the fourth partition failing. *)
Definition svc_three : Services :=
  {| embeddings_create := fun _ => Return [f0_5];
     index_query := fun _ _ ns =>
       if bool_decide (ns = "faq") then Return [a_match "id1" f0_85]
       else if bool_decide (ns = "concept") then Return [a_match "id2" f0_83]
       else if bool_decide (ns = "dictionary") then Return [a_match "id3" f0_5]
       else Raise "unavailable";
     chat_completion := fun _ _ _ => Return "answer" |}.

(** Two partitions returning the same weighted score 0.5, and two matches of
    one partition with the same score. *)
Definition two_partitions : list (string * NamespaceConfig) :=
  [ ("dictionary", {| weight := f1_0; top_k := 2; description := "d" |});
    ("glossary", {| weight := f1_0; top_k := 2; description := "g" |}) ].

Definition svc_ties : Services :=
  {| embeddings_create := fun _ => Return [f0_5];
     index_query := fun _ _ ns =>
       if bool_decide (ns = "dictionary")
       then Return [a_match "d1" f0_5; a_match "d2" f0_5]
       else Return [a_match "g1" f0_5];
     chat_completion := fun _ _ _ => Return "answer" |}.

(** The embedding call fails. *)
Definition svc_no_embedding : Services :=
  {| embeddings_create := fun _ => Raise "embedding failed";
     index_query := fun _ _ _ => Return [];
     chat_completion := fun _ _ _ => Return "answer" |}.

(** Every similarity search fails. *)
Definition svc_no_index : Services :=
  {| embeddings_create := fun _ => Return [f0_5];
     index_query := fun _ _ _ => Raise "index unavailable";
     chat_completion := fun _ _ _ => Return "answer" |}.

(** One partition returns a NaN score, another one a score of 0.5. *)
Definition svc_nan : Services :=
  {| embeddings_create := fun _ => Return [f0_5];
     index_query := fun _ _ ns =>
       if bool_decide (ns = "faq") then Return [a_match "bad" S754_nan]
       else if bool_decide (ns = "dictionary") then Return [a_match "good" f0_5]
       else Return [];
     chat_completion := fun _ _ _ => Return "answer" |}.

(** A NaN score between two sound ones: 0.25 from the first partition, NaN
    from the second, 0.83 from the third. *)
Definition f0_25 : float := Eval vm_compute in literal 25 100.

Definition svc_nan_between : Services :=
  {| embeddings_create := fun _ => Return [f0_5];
     index_query := fun _ _ ns =>
       if bool_decide (ns = "faq") then Return [a_match "first" f0_25]
       else if bool_decide (ns = "dictionary") then Return [a_match "bad" S754_nan]
       else if bool_decide (ns = "concept") then Return [a_match "third" f0_83]
       else Return [];
     chat_completion := fun _ _ _ => Return "answer" |}.

End Examples.

(** ** Orders on the verdicts *)

(** The confidence levels from the weakest to the strongest. *)
Definition level_rank (level : string) : nat :=
  if bool_decide (level = "high") then 4
  else if bool_decide (level = "medium") then 3
  else if bool_decide (level = "low") then 2
  else if bool_decide (level = "very_low") then 1
  else 0.

(** The number of matches that the configured [top_k] values allow. *)
Definition total_top_k (configs : list (string * NamespaceConfig)) : Z :=
  fold_right (fun item acc => Z.max 0 (top_k (snd item)) + acc) 0 configs.

(** ** [extract_search_context] (response_formatter_v4.py)

    The function reads the dictionary that [search_and_answer] returns. *)

Record SearchContext : Type := {
  dictionary_words : list string;
  has_faq_result : bool;
  primary_namespace : option string
}.

(** One round of the loop over [search_results.get('results', [])]. The
    metadata field ['word'] counts when it is present and not empty. *)
Definition context_step (context : SearchContext) (result : Result)
    : SearchContext :=
  if bool_decide (namespace result = "dictionary") then
    match metadata result !! "word" with
    | Some word =>
        if bool_decide (word = EmptyString) then context
        else {| dictionary_words := dictionary_words context ++ [word];
                has_faq_result := has_faq_result context;
                primary_namespace := primary_namespace context |}
    | None => context
    end
  else if bool_decide (namespace result = "faq") then
    {| dictionary_words := dictionary_words context;
       has_faq_result := true;
       primary_namespace := primary_namespace context |}
  else context.

Definition extract_search_context (search_results : Response) : SearchContext :=
  let context :=
    {| dictionary_words := []; has_faq_result := false;
       primary_namespace := None |} in
  let context :=
    match results search_results with
    | [] => context
    | first :: _ =>
        {| dictionary_words := dictionary_words context;
           has_faq_result := has_faq_result context;
           primary_namespace := Some (namespace first) |}
    end in
  fold_left context_step (results search_results) context.

(** ** [shorten_text] (response_formatter_v4.py)

    A Python string is a sequence of code points, and [len] counts them. *)
Module PyStr.

Definition str : Type := list N.

Definition dot : N := 46.

(** The code points that [str.strip] removes. *)
Definition is_space (c : N) : bool :=
  ((9 <=? c) && (c <=? 13))%N || ((28 <=? c) && (c <=? 32))%N
  || (c =? 133)%N || (c =? 160)%N || (c =? 5760)%N
  || ((8192 <=? c) && (c <=? 8202))%N || (c =? 8232)%N || (c =? 8233)%N
  || (c =? 8239)%N || (c =? 8287)%N || (c =? 12288)%N.

Fixpoint lstrip (s : str) : str :=
  match s with
  | [] => []
  | c :: s' => if is_space c then lstrip s' else s
  end.

Definition rstrip (s : str) : str := rev (lstrip (rev s)).

Definition strip (s : str) : str := rstrip (lstrip s).

(** [text.split('.')]: the pieces between the dots, at least one piece. *)
Fixpoint split_dot (text : str) : list str :=
  match text with
  | [] => [[]]
  | c :: text' =>
      if (c =? dot)%N then [] :: split_dot text'
      else match split_dot text' with
           | piece :: pieces => (c :: piece) :: pieces
           | [] => [[c]]
           end
  end.

(** The loop [for sentence in sentences], with its [break]. *)
Fixpoint shorten_loop (max_chars : Z) (sentences : list str) (shortened : str)
    : str :=
  match sentences with
  | [] => shortened
  | sentence :: sentences' =>
      if len (shortened ++ sentence) <? max_chars then
        shorten_loop max_chars sentences' (shortened ++ sentence ++ [dot])
      else shortened
  end.

Definition shorten_text (text : str) (max_chars : Z) : str :=
  if len text <=? max_chars then text
  else
    let sentences := split_dot text in
    let shortened := shorten_loop max_chars sentences [] in
    let shortened :=
      match shortened with
      | [] => slice_to text max_chars ++ [dot; dot; dot]
      | _ :: _ => shortened
      end in
    strip shortened.

(** [text] read back from its pieces: the pieces joined by dots. *)
Fixpoint join_dot (pieces : list str) : str :=
  match pieces with
  | [] => []
  | [piece] => piece
  | piece :: pieces' => piece ++ dot :: join_dot pieces'
  end.

End PyStr.

(** ** [_get_grade] (agent_evaluator_v2.py) *)

Module Evaluator.

Definition f0_7 : float := Eval vm_compute in literal 7 10.
Definition f0_5 : float := Eval vm_compute in literal 5 10.

Definition _get_grade (score : float) : string :=
  if fge score f0_8 then "A (탁월)"
  else if fge score f0_7 then "B (양호)"
  else if fge score f0_6 then "C (보통)"
  else if fge score f0_5 then "D (미흡)"
  else "F (부족)".

(** The grades from the lowest to the highest. *)
Definition grade_rank (grade : string) : nat :=
  if bool_decide (grade = "A (탁월)") then 4
  else if bool_decide (grade = "B (양호)") then 3
  else if bool_decide (grade = "C (보통)") then 2
  else if bool_decide (grade = "D (미흡)") then 1
  else 0.

End Evaluator.

(** ** [get_images] (response_formatter_v4.py) *)

(** A row of a table: from column names to the text of the value, [None]
    for a null value. *)
Abbreviation Row := (gmap string (option string)).

(** The table lookups that [get_images] makes: the rows in
    [response.data], or an exception. *)
Record Database : Type := {
  dictionary_by_word : string -> PyResult (list Row);
  chunk_by_concept : Z -> PyResult (list Row);
  concept_by_id : Z -> PyResult (list Row)
}.

Record Image : Type := {
  img_url : string;
  img_description : string;
  img_source : string
}.

(** [response.data and response.data[0].get('image_url')]: the address in
    the first row when it is neither missing, null nor empty; a lookup that
    raised gives nothing ([except: pass]). *)
Definition image_url_of (response : PyResult (list Row)) : option (string * Row) :=
  match response with
  | Return (row :: _) =>
      match row !! "image_url" with
      | Some (Some address) =>
          if bool_decide (address = EmptyString) then None
          else Some (address, row)
      | _ => None
      end
  | _ => None
  end.

(** [row.get('concept_name', '개념')] as the f-string shows it. *)
Definition concept_name_text (row : Row) : string :=
  match row !! "concept_name" with
  | Some (Some name) => name
  | Some None => "None"
  | None => "개념"
  end.

Definition add_dictionary_image (db : Database) (images : list Image)
    (word : string) : list Image :=
  match image_url_of (dictionary_by_word db word) with
  | Some (address, _) =>
      images ++ [ {| img_url := address;
                     img_description := String.append word " 관련 이미지";
                     img_source := "dictionary" |} ]
  | None => images
  end.

Definition add_chunk_image (db : Database) (images : list Image)
    (concept_id : Z) : list Image :=
  match image_url_of (chunk_by_concept db concept_id) with
  | Some (address, _) =>
      images ++ [ {| img_url := address;
                     img_description := "관련 교과서 이미지";
                     img_source := "chunk" |} ]
  | None => images
  end.

Definition add_concept_image (db : Database) (images : list Image)
    (concept_id : Z) : list Image :=
  match image_url_of (concept_by_id db concept_id) with
  | Some (address, row) =>
      images ++ [ {| img_url := address;
                     img_description :=
                       String.append (concept_name_text row) " 관련 이미지";
                     img_source := "concept" |} ]
  | None => images
  end.

(** The three marks that [get_images] gives to an image. *)
Definition known_source (image : Image) : Prop :=
  img_source image = "dictionary" \/ img_source image = "chunk"
  \/ img_source image = "concept".

Definition nonempty {A : Type} (l : list A) : bool :=
  match l with [] => false | _ :: _ => true end.

Definition get_images (concept_ids : list Z) (search_context : SearchContext)
    (db : Database) (max_count : Z) : list Image :=
  let images :=
    if bool_decide (primary_namespace search_context = Some "dictionary")
       && nonempty (dictionary_words search_context) then
      fold_left (add_dictionary_image db)
        (slice_to (dictionary_words search_context) max_count) []
    else if bool_decide (primary_namespace search_context = Some "faq")
            && nonempty concept_ids then
      fold_left (add_chunk_image db) (slice_to concept_ids max_count) []
    else [] in
  let remaining_count := max_count - len images in
  if (0 <? remaining_count) && nonempty concept_ids then
    fold_left (add_concept_image db) (slice_to concept_ids remaining_count)
      images
  else images.

(** * Properties *)


Section FloatOrder.

Lemma lex_compare_Lt a b : lex_compare a b = Lt <-> lex_lt a b.
Proof.
  destruct a as [[a1 a2] a3], b as [[b1 b2] b3]; unfold lex_compare, lex_lt.
  destruct (Z.compare_spec a1 b1), (Z.compare_spec a2 b2),
    (Z.compare_spec a3 b3); split; intros;
    first [discriminate | reflexivity | lia].
Qed.

Lemma lex_compare_Eq a b : lex_compare a b = Eq <-> a = b.
Proof.
  destruct a as [[a1 a2] a3], b as [[b1 b2] b3]; unfold lex_compare.
  destruct (Z.compare_spec a1 b1), (Z.compare_spec a2 b2),
    (Z.compare_spec a3 b3); split; intros E;
    first [discriminate | reflexivity | congruence | inversion E; lia].
Qed.

Lemma SFcompare_key x y :
  is_nan x = false -> is_nan y = false ->
  SFcompare x y = Some (lex_compare (key x) (key y)).
Proof.
  destruct x as [sx | sx | | sx mx ex], y as [sy | sy | | sy my ey];
    simpl; try discriminate; intros _ _;
    try (destruct sx); try (destruct sy); simpl; try reflexivity.
  rewrite Z.compare_opp, (Z.compare_antisym ex ey).
  destruct (ex ?= ey); reflexivity.
Qed.

Lemma SFcompare_nan x y :
  is_nan x = true \/ is_nan y = true -> SFcompare x y = None.
Proof.
  destruct x, y; simpl; intros [H | H]; try discriminate; reflexivity.
Qed.

Lemma flt_spec x y :
  flt x y = true <->
  is_nan x = false /\ is_nan y = false /\ lex_lt (key x) (key y).
Proof.
  unfold flt, SFltb.
  destruct (is_nan x) eqn:Hx; [| destruct (is_nan y) eqn:Hy].
  - rewrite SFcompare_nan by auto. intuition discriminate.
  - rewrite SFcompare_nan by auto. intuition discriminate.
  - rewrite SFcompare_key by assumption. rewrite <- lex_compare_Lt.
    destruct (lex_compare (key x) (key y)); intuition discriminate.
Qed.

Lemma feq_spec x y :
  feq x y = true <-> is_nan x = false /\ is_nan y = false /\ key x = key y.
Proof.
  unfold feq, SFeqb.
  destruct (is_nan x) eqn:Hx; [| destruct (is_nan y) eqn:Hy].
  - rewrite SFcompare_nan by auto. intuition discriminate.
  - rewrite SFcompare_nan by auto. intuition discriminate.
  - rewrite SFcompare_key by assumption. rewrite <- lex_compare_Eq.
    destruct (lex_compare (key x) (key y)); intuition discriminate.
Qed.

Lemma fle_spec x y :
  fle x y = true <->
  is_nan x = false /\ is_nan y = false /\
  (lex_lt (key x) (key y) \/ key x = key y).
Proof.
  unfold fle, SFleb.
  destruct (is_nan x) eqn:Hx; [| destruct (is_nan y) eqn:Hy].
  - rewrite SFcompare_nan by auto. intuition discriminate.
  - rewrite SFcompare_nan by auto. intuition discriminate.
  - rewrite SFcompare_key by assumption.
    rewrite <- lex_compare_Lt, <- lex_compare_Eq.
    destruct (lex_compare (key x) (key y)); intuition discriminate.
Qed.

Lemma lex_lt_total a b : lex_lt a b \/ a = b \/ lex_lt b a.
Proof.
  destruct a as [[a1 a2] a3], b as [[b1 b2] b3]; unfold lex_lt.
  destruct (Z.lt_total a1 b1) as [? | [? | ?]];
    destruct (Z.lt_total a2 b2) as [? | [? | ?]];
    destruct (Z.lt_total a3 b3) as [? | [? | ?]]; subst; auto 8 with zarith.
Qed.

Lemma lex_lt_trans a b c : lex_lt a b -> lex_lt b c -> lex_lt a c.
Proof.
  destruct a as [[a1 a2] a3], b as [[b1 b2] b3], c as [[c1 c2] c3].
  unfold lex_lt. lia.
Qed.

Lemma lex_lt_irrefl a : ~ lex_lt a a.
Proof. destruct a as [[a1 a2] a3]. unfold lex_lt. lia. Qed.

(** Without NaN, [not (y < x)] is [x <= y]. *)
Lemma flt_false_fle x y :
  is_nan x = false -> is_nan y = false -> flt y x = false -> fle x y = true.
Proof.
  intros Hx Hy Hlt. apply fle_spec. repeat split; try assumption.
  destruct (lex_lt_total (key x) (key y)) as [H | [H | H]]; auto.
  exfalso. assert (flt y x = true) by (apply flt_spec; auto). congruence.
Qed.

Lemma flt_fle x y : flt x y = true -> fle x y = true.
Proof.
  rewrite flt_spec, fle_spec. intuition.
Qed.

Lemma fle_trans x y z : fle x y = true -> fle y z = true -> fle x z = true.
Proof.
  rewrite !fle_spec. intros (Hx & Hy & Hxy) (_ & Hz & Hyz).
  repeat split; try assumption.
  destruct Hxy as [Hxy | Hxy], Hyz as [Hyz | Hyz].
  - left. eapply lex_lt_trans; eassumption.
  - left. rewrite <- Hyz. assumption.
  - left. rewrite Hxy. assumption.
  - right. congruence.
Qed.

Lemma fle_flt_trans x y z : fle x y = true -> flt y z = true -> flt x z = true.
Proof.
  rewrite fle_spec, !flt_spec. intros (Hx & Hy & Hxy) (_ & Hz & Hyz).
  repeat split; try assumption.
  destruct Hxy as [Hxy | Hxy].
  - eapply lex_lt_trans; eassumption.
  - rewrite Hxy. assumption.
Qed.

Lemma flt_trans x y z : flt x y = true -> flt y z = true -> flt x z = true.
Proof. intros H. apply fle_flt_trans, flt_fle, H. Qed.

Lemma flt_not_fge x y : flt x y = true -> fge x y = false.
Proof.
  intros Hlt. unfold fge. change (fle y x = false).
  destruct (fle y x) eqn:Hle; [| reflexivity].
  pose proof (fle_flt_trans _ _ _ Hle Hlt) as H.
  apply flt_spec in H. destruct H as (_ & _ & H).
  exfalso. exact (lex_lt_irrefl _ H).
Qed.

Lemma feq_refl x : is_nan x = false -> feq x x = true.
Proof. intros H. apply feq_spec. auto. Qed.

Lemma feq_sym x y : feq x y = true -> feq y x = true.
Proof. rewrite !feq_spec. intuition. Qed.

(** A key strictly below another one is not equal to what that one equals. *)
Lemma flt_feq_false x y v : flt y x = true -> feq x v = true -> feq y v = false.
Proof.
  intros Hlt Heq. destruct (feq y v) eqn:Hyv; [| reflexivity].
  apply flt_spec in Hlt. apply feq_spec in Heq. apply feq_spec in Hyv.
  destruct Hlt as (_ & _ & Hlt), Heq as (_ & _ & Heq), Hyv as (_ & _ & Hyv).
  rewrite Hyv, <- Heq in Hlt. exfalso. exact (lex_lt_irrefl _ Hlt).
Qed.

Lemma fge_nan_l x y : is_nan x = true -> fge x y = false.
Proof. destruct x, y; simpl; try discriminate; reflexivity. Qed.

End FloatOrder.

(** ** Arithmetic never invents a NaN from finite operands *)

Section FloatArith.

Lemma shr_1_nonneg mrs : 0 <= shr_m mrs -> 0 <= shr_m (shr_1 mrs).
Proof.
  destruct mrs as [m r s]. destruct m as [| p | p]; simpl; try lia;
    destruct p; simpl; lia.
Qed.

Lemma iter_pos_shr_1_nonneg p :
  forall mrs, 0 <= shr_m mrs -> 0 <= shr_m (SpecFloat.iter_pos shr_1 p mrs).
Proof.
  induction p as [p IH | p IH |]; simpl; intros mrs H.
  - apply IH, IH, shr_1_nonneg, H.
  - apply IH, IH, H.
  - apply shr_1_nonneg, H.
Qed.

Lemma shr_nonneg mrs e n : 0 <= shr_m mrs -> 0 <= shr_m (fst (shr mrs e n)).
Proof.
  intros H. destruct n; simpl; try assumption.
  apply iter_pos_shr_1_nonneg, H.
Qed.

Lemma shr_fexp_nonneg m e l :
  0 <= m -> 0 <= shr_m (fst (shr_fexp prec emax m e l)).
Proof.
  intros H. unfold shr_fexp. apply shr_nonneg.
  destruct l as [| []]; simpl; assumption.
Qed.

Lemma round_nearest_even_nonneg m l : 0 <= m -> 0 <= round_nearest_even m l.
Proof.
  intros H. destruct l as [| []]; simpl; try lia.
  destruct (Z.even m); lia.
Qed.

Lemma binary_round_aux_not_nan sx mx ex lx :
  0 <= mx -> is_nan (binary_round_aux prec emax sx mx ex lx) = false.
Proof.
  intros H. unfold binary_round_aux.
  pose proof (shr_fexp_nonneg mx ex lx H) as H1.
  destruct (shr_fexp prec emax mx ex lx) as [mrs' e']. simpl in H1.
  pose proof (shr_fexp_nonneg _ e' loc_Exact
                (round_nearest_even_nonneg _ (loc_of_shr_record mrs') H1)) as H2.
  destruct (shr_fexp prec emax _ e' loc_Exact) as [mrs'' e'']. simpl in H2.
  destruct (shr_m mrs'') as [| m | m]; simpl; try reflexivity; try lia.
  destruct (e'' <=? emax - prec); reflexivity.
Qed.

Lemma binary_normalize_not_nan m e sz :
  is_nan (binary_normalize prec emax m e sz) = false.
Proof.
  destruct m as [| p | p]; simpl; try reflexivity; unfold binary_round;
    destruct (shl_align _ _ _) as [mz ez]; apply binary_round_aux_not_nan; lia.
Qed.

Lemma fmul_finite_not_nan x y :
  is_finite x = true -> is_finite y = true -> is_nan (fmul x y) = false.
Proof.
  destruct x, y; simpl; try discriminate; try reflexivity. intros _ _.
  apply binary_round_aux_not_nan. lia.
Qed.

Lemma fadd_finite_not_nan x y :
  is_nan x = false -> is_finite y = true -> is_nan (fadd x y) = false.
Proof.
  destruct x as [sx | sx | | sx mx ex], y as [sy | sy | | sy my ey];
    simpl; try discriminate; try reflexivity; intros _ _.
  - destruct sx, sy; reflexivity.
  - apply binary_normalize_not_nan.
Qed.

End FloatArith.

(** ** The reverse sort: permutation, stability, descending order *)

Section SortFacts.
Context {A : Type} (k : A -> float).

(** The elements whose key equals [v]. *)
Definition same_key (v : float) (a : A) : bool := feq (k a) v.

Definition key_le (a b : A) : Prop := fle (k a) (k b) = true.
Definition key_ge (a b : A) : Prop := fge (k a) (k b) = true.

Lemma insert_sorted_perm x l : Permutation (insert_sorted k x l) (x :: l).
Proof.
  induction l as [| y l IH]; simpl; [reflexivity |].
  destruct (flt (k y) (k x)); [| reflexivity].
  rewrite IH. apply perm_swap.
Qed.

Lemma stable_sort_perm l : Permutation (stable_sort k l) l.
Proof.
  induction l as [| x l IH]; simpl; [reflexivity |].
  rewrite insert_sorted_perm. apply perm_skip, IH.
Qed.

Lemma sort_reverse_perm l : Permutation (sort_reverse k l) l.
Proof.
  unfold sort_reverse.
  rewrite <- Permutation_rev, stable_sort_perm, <- Permutation_rev.
  reflexivity.
Qed.

Lemma insert_sorted_same v x l :
  List.filter (same_key v) (insert_sorted k x l)
  = List.filter (same_key v) (x :: l).
Proof.
  induction l as [| y l IH]; [reflexivity |].
  cbn [insert_sorted]. destruct (flt (k y) (k x)) eqn:Hlt; [| reflexivity].
  cbn [List.filter] in *. rewrite IH.
  destruct (same_key v x) eqn:Hx; [| reflexivity].
  assert (Hy : same_key v y = false) by exact (flt_feq_false _ _ _ Hlt Hx).
  rewrite Hy. reflexivity.
Qed.

Lemma stable_sort_same v l :
  List.filter (same_key v) (stable_sort k l) = List.filter (same_key v) l.
Proof.
  induction l as [| x l IH]; [reflexivity |].
  cbn [stable_sort foldr]. fold (stable_sort k l).
  rewrite insert_sorted_same. cbn [List.filter]. rewrite IH. reflexivity.
Qed.

(** Stability: the matches of any one score keep their relative order. *)
Lemma sort_reverse_same v l :
  List.filter (same_key v) (sort_reverse k l) = List.filter (same_key v) l.
Proof.
  unfold sort_reverse.
  rewrite filter_rev, stable_sort_same, filter_rev, rev_involutive.
  reflexivity.
Qed.

Lemma insert_sorted_sorted x l :
  is_nan (k x) = false ->
  Forall (fun y => is_nan (k y) = false) l ->
  StronglySorted key_le l ->
  StronglySorted key_le (insert_sorted k x l).
Proof.
  intros Hx Hl Hs. induction l as [| y l IH]; simpl.
  - constructor; constructor.
  - inversion Hl as [| ? ? Hy Hl']; subst.
    inversion Hs as [| ? ? Hs' Hall]; subst.
    destruct (flt (k y) (k x)) eqn:Hlt.
    + constructor; [apply IH; assumption |].
      rewrite insert_sorted_perm. constructor; [| assumption].
      apply flt_fle, Hlt.
    + constructor; [assumption |].
      assert (Hxy : key_le x y) by (apply flt_false_fle; assumption).
      constructor; [assumption |].
      eapply Forall_impl; [exact Hall |].
      intros z Hz. eapply fle_trans; eassumption.
Qed.

Lemma stable_sort_sorted l :
  Forall (fun y => is_nan (k y) = false) l ->
  StronglySorted key_le (stable_sort k l).
Proof.
  induction l as [| x l IH]; simpl; intros Hl; [constructor |].
  inversion Hl; subst. apply insert_sorted_sorted; auto.
  rewrite stable_sort_perm. assumption.
Qed.

Lemma StronglySorted_snoc (R : A -> A -> Prop) l x :
  StronglySorted R l -> Forall (fun y => R y x) l ->
  StronglySorted R (l ++ [x]).
Proof.
  induction 1 as [| y l Hs IH Hall]; simpl; intros Hx.
  - constructor; constructor.
  - inversion Hx; subst. constructor; [auto |].
    apply Forall_app; split; [assumption |]. constructor; [assumption | constructor].
Qed.

Lemma StronglySorted_rev (R : A -> A -> Prop) l :
  StronglySorted R l -> StronglySorted (fun a b => R b a) (rev l).
Proof.
  induction 1 as [| y l Hs IH Hall]; simpl; [constructor |].
  apply StronglySorted_snoc; [assumption |].
  apply Forall_rev. assumption.
Qed.

Lemma StronglySorted_adjacent (R : A -> A -> Prop) l :
  StronglySorted R l ->
  forall (i : nat) a b, l !! i = Some a -> l !! S i = Some b -> R a b.
Proof.
  induction 1 as [| y l Hs IH Hall]; intros i a b Ha Hb; [discriminate |].
  destruct i as [| i]; simpl in *.
  - inversion Ha; subst.
    destruct l as [| z l']; [discriminate |]. simpl in Hb.
    inversion Hb; subst. inversion Hall; assumption.
  - eapply IH; eassumption.
Qed.

Lemma sort_reverse_sorted l :
  Forall (fun y => is_nan (k y) = false) l ->
  StronglySorted key_ge (sort_reverse k l).
Proof.
  intros Hl. unfold sort_reverse.
  apply (StronglySorted_rev key_le).
  apply stable_sort_sorted. apply Forall_rev. assumption.
Qed.

(** A match of the filtered list sits in the list itself, with the filtered
    parts on either side. *)
Lemma filter_split (p : A -> bool) l :
  forall u a v, List.filter p l = u ++ a :: v ->
  exists l1 l2, l = l1 ++ a :: l2
                /\ List.filter p l1 = u /\ List.filter p l2 = v.
Proof.
  induction l as [| x l IH]; intros u a v H; simpl in H.
  - destruct u; discriminate.
  - destruct (p x) eqn:Hp.
    + destruct u as [| y u]; simpl in H; inversion H; subst.
      * exists [], l. simpl. auto.
      * destruct (IH _ _ _ H2) as (l1 & l2 & -> & H3 & H4).
        exists (y :: l1), l2. simpl. rewrite Hp, H3. auto.
    + destruct (IH _ _ _ H) as (l1 & l2 & -> & H3 & H4).
      exists (x :: l1), l2. simpl. rewrite Hp. auto.
Qed.

End SortFacts.

(** ** The functions on concrete inputs *)

Section Scenarios.

(** Weighted scores 1.02, 0.747 and 0.5: the order follows them and the level
    is that of the weighted best. *)
Example ranked_three :
  map id (search_all_namespaces namespace_configs Examples.svc_three
            [Examples.f0_5])
  = ["id1"; "id2"; "id3"]
  /\ fst (calculate_confidence_level
            (search_all_namespaces namespace_configs Examples.svc_three
               [Examples.f0_5]))
     = "high".
Proof. vm_compute. split; reflexivity. Qed.

(** The deviation of 0.81, 0.80 and 0.79 is about 0.008. *)
Example deviation_of_close_scores :
  flt (np_std [Examples.f0_81; f0_8; Examples.f0_79]) f0_1 = true
  /\ flt (literal 8 1000) (np_std [Examples.f0_81; f0_8; Examples.f0_79])
     = true
  /\ flt (np_std [Examples.f0_81; f0_8; Examples.f0_79]) (literal 9 1000)
     = true.
Proof. vm_compute. repeat split. Qed.

(** Four matches of partition A at 0.9 and one of partition B at 0.85: the
    selection of three takes two of A and the one of B. *)
Example selection_with_cap :
  map id (select_diverse_results
            [Examples.a_result "a1" "A" f0_9; Examples.a_result "a2" "A" f0_9;
             Examples.a_result "a3" "A" f0_9; Examples.a_result "a4" "A" f0_9;
             Examples.a_result "b" "B" Examples.f0_85] 3)
  = ["a1"; "a2"; "b"].
Proof. vm_compute. reflexivity. Qed.

(** A negative maximum: the final slice drops entries from the end. *)
Example selection_negative_max :
  select_diverse_results
    [Examples.a_result "a1" "A" f0_9; Examples.a_result "b" "B" Examples.f0_85]
    (-1)
  = [].
Proof. vm_compute. reflexivity. Qed.

End Scenarios.

(** ** The aggregated list *)

Section Aggregation.
Variable configs : list (string * NamespaceConfig).
Variable svc : Services.
Variable query_embedding : list float.

Lemma search_namespace_app acc item :
  search_namespace svc query_embedding acc item
  = acc ++ namespace_results svc query_embedding item.
Proof.
  unfold namespace_results, search_namespace. destruct item as [ns config].
  destruct (index_query svc query_embedding (top_k config) ns);
    [reflexivity | rewrite app_nil_r; reflexivity].
Qed.

Lemma fold_search_namespace cs : forall acc,
  fold_left (search_namespace svc query_embedding) cs acc
  = acc ++ flat_map (namespace_results svc query_embedding) cs.
Proof.
  induction cs as [| c cs IH]; intros acc; simpl.
  - rewrite app_nil_r. reflexivity.
  - rewrite IH, search_namespace_app, <- app_assoc. reflexivity.
Qed.

(** The partitions contribute in the order of the configuration. *)
Lemma collect_results_flat_map :
  collect_results configs svc query_embedding
  = flat_map (namespace_results svc query_embedding) configs.
Proof. unfold collect_results. apply fold_search_namespace. Qed.

(** Finite raw scores and finite weights give weighted scores that are
    numbers. *)
Lemma collect_results_numbers :
  Forall (fun item => is_finite (weight (snd item)) = true) configs ->
  (forall ns config matches,
      In (ns, config) configs ->
      index_query svc query_embedding (top_k config) ns = Return matches ->
      Forall (fun m => is_finite (match_score m) = true) matches) ->
  Forall (fun r => is_nan (weighted_score r) = false)
         (collect_results configs svc query_embedding).
Proof.
  rewrite collect_results_flat_map.
  induction configs as [| [ns config] cs IH]; intros Hw Hs; [constructor |].
  inversion Hw as [| ? ? Hw0 Hw']; subst. cbn [flat_map].
  apply Forall_app. split.
  - unfold namespace_results, search_namespace. cbn [app].
    destruct (index_query svc query_embedding (top_k config) ns)
      as [matches | e] eqn:Hq; [| constructor].
    specialize (Hs ns config matches (or_introl eq_refl) Hq). clear Hq.
    induction Hs as [| m ms Hm _ IHm]; [constructor |].
    constructor; [| exact IHm].
    apply fmul_finite_not_nan; assumption.
  - apply IH; [exact Hw' |].
    intros ns' config' matches Hin. apply Hs. right. exact Hin.
Qed.

(** Two matches of equal score leave the sort in the order they entered. *)
Lemma sort_reverse_keeps_order (l l1 l2 l3 : list Result) a b :
  l = l1 ++ a :: l2 ++ b :: l3 ->
  feq (weighted_score a) (weighted_score b) = true ->
  exists o1 o2 o3, sort_reverse weighted_score l = o1 ++ a :: o2 ++ b :: o3.
Proof.
  intros -> Heq.
  pose proof (sort_reverse_same weighted_score (weighted_score a)
                (l1 ++ a :: l2 ++ b :: l3)) as H.
  assert (Ha : same_key weighted_score (weighted_score a) a = true).
  { apply feq_refl. apply feq_spec in Heq. tauto. }
  assert (Hb : same_key weighted_score (weighted_score a) b = true).
  { apply feq_sym, Heq. }
  rewrite (List.filter_app _ l1) in H. cbn [List.filter] in H.
  rewrite Ha, (List.filter_app _ l2) in H. cbn [List.filter] in H.
  rewrite Hb in H.
  apply filter_split in H. destruct H as (o1 & o & Ho & _ & H).
  apply filter_split in H. destruct H as (o2 & o3 & -> & _ & _).
  exists o1, o2, o3. exact Ho.
Qed.

End Aggregation.

(** Claim C1. The list that [search_all_namespaces] returns is in
    non-increasing order of [weighted_score]: every entry's weighted score
    is [>=] the weighted score of the entry after it. This holds for every
    configuration and every outcome of the similarity searches in which the
    weighted scores are numbers. *)
Theorem C1_ranked_descending configs svc query_embedding :
  Forall (fun r => is_nan (weighted_score r) = false)
         (collect_results configs svc query_embedding) ->
  forall (i : nat) a b,
    search_all_namespaces configs svc query_embedding !! i = Some a ->
    search_all_namespaces configs svc query_embedding !! S i = Some b ->
    fge (weighted_score a) (weighted_score b) = true.
Proof.
  intros Hnum i a b Ha Hb.
  exact (StronglySorted_adjacent _ _
           (sort_reverse_sorted weighted_score _ Hnum) i a b Ha Hb).
Qed.

Lemma C1_ranked_descending_witness :
  fge (fmul Examples.f0_85 f1_2) (fmul Examples.f0_83 f0_9) = true.
Proof.
  apply (C1_ranked_descending namespace_configs Examples.svc_three
           [Examples.f0_5]
           ltac:(vm_compute; repeat constructor)
           0%nat
           (make_result "faq"
              {| weight := f1_2; top_k := 3; description := "FAQ" |}
              (Examples.a_match "id1" Examples.f0_85))
           (make_result "concept"
              {| weight := f0_9; top_k := 2; description := "개념설명" |}
              (Examples.a_match "id2" Examples.f0_83)));
    vm_compute; reflexivity.
Defined.

(** Claim C2. Ties are broken stably. For every configuration and every
    outcome of the similarity searches in which the weighted scores are
    numbers: of two matches with equal [weighted_score], the one from the
    partition that the configuration lists first comes first in the
    returned list; two such matches of one partition keep the order in
    which the similarity search returned them; and, for every score, the
    matches of that score are in the returned list in the order in which
    they were collected. *)
Theorem C2_stable_ties configs svc query_embedding :
  Forall (fun r => is_nan (weighted_score r) = false)
         (collect_results configs svc query_embedding) ->
  (forall c1 itemA c2 itemB c3 a b,
      configs = c1 ++ itemA :: c2 ++ itemB :: c3 ->
      In a (namespace_results svc query_embedding itemA) ->
      In b (namespace_results svc query_embedding itemB) ->
      feq (weighted_score a) (weighted_score b) = true ->
      exists o1 o2 o3,
        search_all_namespaces configs svc query_embedding
        = o1 ++ a :: o2 ++ b :: o3)
  /\ (forall c1 item c2 m1 a m2 b m3,
      configs = c1 ++ item :: c2 ->
      namespace_results svc query_embedding item = m1 ++ a :: m2 ++ b :: m3 ->
      feq (weighted_score a) (weighted_score b) = true ->
      exists o1 o2 o3,
        search_all_namespaces configs svc query_embedding
        = o1 ++ a :: o2 ++ b :: o3)
  /\ (forall v,
      List.filter (same_key weighted_score v)
        (search_all_namespaces configs svc query_embedding)
      = List.filter (same_key weighted_score v)
          (collect_results configs svc query_embedding)).
Proof.
  intros _.
  set (F := flat_map (namespace_results svc query_embedding)).
  split; [| split].
  - intros c1 itemA c2 itemB c3 a b -> Ha Hb Heq.
    apply in_split in Ha. destruct Ha as (A1 & A2 & HA).
    apply in_split in Hb. destruct Hb as (B1 & B2 & HB).
    unfold search_all_namespaces.
    apply (sort_reverse_keeps_order _ (F c1 ++ A1) (A2 ++ F c2 ++ B1)
             (B2 ++ F c3)); [| exact Heq].
    rewrite collect_results_flat_map.
    rewrite flat_map_app. cbn [flat_map]. rewrite flat_map_app.
    cbn [flat_map]. rewrite HA, HB. fold (F c1) (F c2) (F c3).
    repeat (rewrite <- ?app_assoc; cbn [app]). reflexivity.
  - intros c1 item c2 m1 a m2 b m3 -> Hm Heq.
    unfold search_all_namespaces.
    apply (sort_reverse_keeps_order _ (F c1 ++ m1) m2 (m3 ++ F c2));
      [| exact Heq].
    rewrite collect_results_flat_map.
    rewrite flat_map_app. cbn [flat_map]. rewrite Hm. fold (F c1) (F c2).
    repeat (rewrite <- ?app_assoc; cbn [app]). reflexivity.
  - intros v. apply sort_reverse_same.
Qed.

Lemma C2_stable_ties_witness :
  exists o1 o2 o3,
    search_all_namespaces Examples.two_partitions Examples.svc_ties
      [Examples.f0_5]
    = o1 ++ make_result "dictionary"
              {| weight := f1_0; top_k := 2; description := "d" |}
              (Examples.a_match "d2" Examples.f0_5)
         :: o2 ++ make_result "glossary"
              {| weight := f1_0; top_k := 2; description := "g" |}
              (Examples.a_match "g1" Examples.f0_5)
         :: o3.
Proof.
  apply (proj1 (C2_stable_ties Examples.two_partitions Examples.svc_ties
                  [Examples.f0_5] ltac:(vm_compute; repeat constructor))
           []
           ("dictionary", {| weight := f1_0; top_k := 2; description := "d" |})
           []
           ("glossary", {| weight := f1_0; top_k := 2; description := "g" |})
           []).
  - reflexivity.
  - right. left. reflexivity.
  - left. reflexivity.
  - vm_compute. reflexivity.
Defined.

(** ** The confidence verdict *)

Section Confidence.

Lemma confidence_level_of_best r0 rest :
  fst (calculate_confidence_level (r0 :: rest))
  = confidence_of (weighted_score r0).
Proof. reflexivity. Qed.

Lemma confidence_score_single r0 :
  snd (calculate_confidence_level [r0]) = weighted_score r0.
Proof. reflexivity. Qed.

Lemma confidence_score_many r0 r1 rest :
  snd (calculate_confidence_level (r0 :: r1 :: rest))
  = if flt (np_std (map weighted_score (firstn 3 (r0 :: r1 :: rest)))) f0_1
    then fadd (weighted_score r0) f0_05
    else weighted_score r0.
Proof.
  unfold calculate_confidence_level.
  replace (2 <=? len (r0 :: r1 :: rest)) with true; [reflexivity |].
  symmetry. apply Z.leb_le. unfold len. simpl length. lia.
Qed.

End Confidence.

(** Claim C3. On an empty list the classifier returns level none and score
    0.0. On a list with first entry [r0] and [best = weighted_score r0], the
    level is high when [best >= 0.8], medium when [0.6 <= best < 0.8], low
    when [0.4 <= best < 0.6] and very_low when [best < 0.4]. The level is a
    function of the weighted score of the first entry alone: the raw score
    and the other entries play no part. *)
Theorem C3_confidence_levels :
  calculate_confidence_level [] = ("none", f0_0)
  /\ (forall r0 rest,
        let best := weighted_score r0 in
        let level := fst (calculate_confidence_level (r0 :: rest)) in
        (fge best f0_8 = true -> level = "high")
        /\ (fge best f0_6 = true -> flt best f0_8 = true -> level = "medium")
        /\ (fge best f0_4 = true -> flt best f0_6 = true -> level = "low")
        /\ (flt best f0_4 = true -> level = "very_low"))
  /\ (forall r0 r0' rest rest',
        weighted_score r0 = weighted_score r0' ->
        fst (calculate_confidence_level (r0 :: rest))
        = fst (calculate_confidence_level (r0' :: rest'))).
Proof.
  split; [reflexivity | split].
  - intros r0 rest best level. subst level.
    rewrite confidence_level_of_best. fold best. unfold confidence_of.
    repeat split.
    + intros ->. reflexivity.
    + intros H6 H8. rewrite (flt_not_fge _ _ H8), H6. reflexivity.
    + intros H4 H6.
      rewrite (flt_not_fge _ _ H6), H4.
      assert (H8 : flt best f0_8 = true)
        by (eapply flt_trans; [exact H6 | reflexivity]).
      rewrite (flt_not_fge _ _ H8). reflexivity.
    + intros H4.
      assert (H6 : flt best f0_6 = true)
        by (eapply flt_trans; [exact H4 | reflexivity]).
      assert (H8 : flt best f0_8 = true)
        by (eapply flt_trans; [exact H6 | reflexivity]).
      rewrite (flt_not_fge _ _ H8), (flt_not_fge _ _ H6),
        (flt_not_fge _ _ H4). reflexivity.
  - intros r0 r0' rest rest' H.
    rewrite !confidence_level_of_best, H. reflexivity.
Qed.

Lemma C3_confidence_levels_witness :
  fst (calculate_confidence_level
         [Examples.a_result "id1" "faq" Examples.f0_7;
          Examples.a_result "id2" "concept" Examples.f0_5])
  = "medium".
Proof.
  apply (proj1 (proj2 (proj1 (proj2 C3_confidence_levels)
                         (Examples.a_result "id1" "faq" Examples.f0_7)
                         [Examples.a_result "id2" "concept" Examples.f0_5])));
    vm_compute; reflexivity.
Defined.

(** Claim C4. With at least two entries, the confidence score is
    [best + 0.05] when the population standard deviation of the weighted
    scores of the first three entries (of all entries when there are fewer)
    is below 0.1, and [best] otherwise; with a single entry it is [best].
    The level is that of the unadjusted [best] in every case, so the bonus
    never changes it. *)
Theorem C4_confidence_score r0 rest :
  let results := r0 :: rest in
  let best := weighted_score r0 in
  let deviation := np_std (map weighted_score (firstn 3 results)) in
  (rest <> [] -> flt deviation f0_1 = true ->
   snd (calculate_confidence_level results) = fadd best f0_05)
  /\ (rest <> [] -> flt deviation f0_1 = false ->
      snd (calculate_confidence_level results) = best)
  /\ (rest = [] -> snd (calculate_confidence_level results) = best)
  /\ fst (calculate_confidence_level results) = confidence_of best
  /\ (forall rest',
        fst (calculate_confidence_level (r0 :: rest'))
        = fst (calculate_confidence_level results)).
Proof.
  intros results best deviation. subst results best deviation.
  repeat split.
  - intros Hne Hdev. destruct rest as [| r1 rest]; [congruence |].
    rewrite confidence_score_many, Hdev. reflexivity.
  - intros Hne Hdev. destruct rest as [| r1 rest]; [congruence |].
    rewrite confidence_score_many, Hdev. reflexivity.
  - intros ->. reflexivity.
Qed.

Lemma C4_confidence_score_witness :
  snd (calculate_confidence_level
         [Examples.a_result "a" "faq" Examples.f0_81;
          Examples.a_result "b" "faq" f0_8;
          Examples.a_result "c" "faq" Examples.f0_79])
  = fadd Examples.f0_81 f0_05.
Proof.
  apply (proj1 (C4_confidence_score
                  (Examples.a_result "a" "faq" Examples.f0_81)
                  [Examples.a_result "b" "faq" f0_8;
                   Examples.a_result "c" "faq" Examples.f0_79])).
  - discriminate.
  - vm_compute. reflexivity.
Defined.

(** ** The diversity selection *)

Section Selection.

Lemma count_of_incr nc a ns :
  count_of (count_incr nc a) ns
  = if decide (a = ns) then S (count_of nc a) else count_of nc ns.
Proof.
  unfold count_incr, count_of at 1. rewrite lookup_insert.
  destruct (decide (a = ns)); reflexivity.
Qed.

Lemma count_ns_cons ns r l :
  count_ns ns (r :: l)
  = ((if decide (namespace r = ns) then 1 else 0) + count_ns ns l)%nat.
Proof.
  unfold count_ns. cbn [List.filter].
  destruct (decide (namespace r = ns)) as [H | H].
  - rewrite bool_decide_eq_true_2 by exact H. reflexivity.
  - rewrite bool_decide_eq_false_2 by exact H. reflexivity.
Qed.

Lemma count_ns_app ns l1 l2 :
  count_ns ns (l1 ++ l2) = (count_ns ns l1 + count_ns ns l2)%nat.
Proof. unfold count_ns. rewrite List.filter_app, length_app. reflexivity. Qed.

Lemma len_app {A : Type} (l1 l2 : list A) : len (l1 ++ l2) = len l1 + len l2.
Proof. unfold len. rewrite length_app. lia. Qed.

Lemma len_nonneg {A : Type} (l : list A) : 0 <= len l.
Proof. unfold len. lia. Qed.

(** What the loop does to [selected] and [namespace_count]. *)
Lemma diversity_loop_spec k cands : forall sel nc sel' nc',
  diversity_loop k cands sel nc = (sel', nc') ->
  exists ext,
    sel' = sel ++ ext
    /\ sublist ext cands
    /\ (forall ns, count_of nc' ns = count_of nc ns + count_ns ns ext)%nat
    /\ (forall ns, (count_of nc ns <= 2)%nat -> (count_of nc' ns <= 2)%nat)
    /\ len sel' <= Z.max (len sel) k.
Proof.
  induction cands as [| r cs IH]; intros sel nc sel' nc' H; simpl in H.
  - inversion H; subst. exists []. rewrite app_nil_r.
    repeat split; auto using sublist_nil; try lia.
  - destruct (len sel >=? k) eqn:Hfull.
    { inversion H; subst. exists []. rewrite app_nil_r.
      repeat split; auto using sublist_nil_l; try lia. }
    destruct (count_of nc (namespace r) <? 2)%nat eqn:Hcap.
    + apply IH in H. destruct H as (ext & -> & Hsub & Hcnt & Hle & Hlen).
      apply Nat.ltb_lt in Hcap.
      exists (r :: ext). rewrite <- app_assoc. cbn [app].
      repeat split.
      * apply sublist_skip, Hsub.
      * intros ns. rewrite Hcnt, count_of_incr, count_ns_cons.
        destruct (decide (namespace r = ns)); subst; lia.
      * intros ns Hns. apply Hle. rewrite count_of_incr.
        destruct (decide (namespace r = ns)); lia.
      * rewrite Z.geb_leb in Hfull. apply Z.leb_gt in Hfull.
        rewrite !len_app in Hlen. change (r :: ext) with ([r] ++ ext).
        rewrite !len_app. unfold len in *. simpl length in *. lia.
    + apply IH in H. destruct H as (ext & -> & Hsub & Hcnt & Hle & Hlen).
      exists ext. repeat split; auto using sublist_cons.
Qed.

Lemma sublist_List_filter {A : Type} (p : A -> bool) (l : list A) :
  sublist (List.filter p l) l.
Proof.
  induction l as [| x l IH]; simpl; [constructor |].
  destruct (p x); [apply sublist_skip | apply sublist_cons]; exact IH.
Qed.

(** The state after the diversity pass. *)
Lemma diversity_pass_spec best rest k sel nc :
  diversity_pass best rest k = (sel, nc) ->
  exists ext,
    sel = best :: ext
    /\ sublist ext rest
    /\ (forall ns, count_of nc ns = count_ns ns sel)
    /\ (forall ns, (count_ns ns sel <= 2)%nat)
    /\ len sel <= Z.max 1 k.
Proof.
  unfold diversity_pass. intros H. apply diversity_loop_spec in H.
  destruct H as (ext & -> & Hsub & Hcnt & Hle & Hlen).
  assert (Hinit : forall ns,
             count_of (count_incr ∅ (namespace best)) ns
             = count_ns ns [best]).
  { intros ns. rewrite count_of_incr, count_ns_cons.
    unfold count_of, count_ns. rewrite !lookup_empty. simpl.
    destruct (decide (namespace best = ns)); reflexivity. }
  exists ext. cbn [app].
  assert (Hall : forall ns, count_of nc ns = count_ns ns (best :: ext)).
  { intros ns. rewrite Hcnt, Hinit.
    change (best :: ext) with ([best] ++ ext). rewrite count_ns_app.
    reflexivity. }
  repeat split.
  - transitivity (List.filter
                    (fun r => fge (weighted_score r)
                                (fmul (weighted_score best) f0_8)) rest);
      [exact Hsub | apply sublist_List_filter].
  - exact Hall.
  - intros ns. rewrite <- Hall. apply Hle. rewrite Hinit, count_ns_cons.
    unfold count_ns. simpl. destruct (decide (namespace best = ns)); lia.
  - exact Hlen.
Qed.

Lemma dict_eq_refl r : dict_eq r r = true.
Proof.
  unfold dict_eq, value_eq.
  rewrite !bool_decide_eq_true_2 by reflexivity. reflexivity.
Qed.

Lemma dict_eq_key a b : dict_eq a b = true -> result_key a = result_key b.
Proof.
  unfold dict_eq, result_key. rewrite !andb_true_iff.
  intros (((((Hid & _) & _) & Hns) & _) & _).
  apply bool_decide_eq_true_1 in Hid. apply bool_decide_eq_true_1 in Hns.
  congruence.
Qed.

Lemma py_in_other_key r l :
  ~ In (result_key r) (map result_key l) -> py_in r l = false.
Proof.
  intros Hnot. unfold py_in.
  destruct (existsb (dict_eq r) l) eqn:H; [| reflexivity].
  apply existsb_exists in H. destruct H as (s & Hs & Heq).
  exfalso. apply Hnot. rewrite (dict_eq_key _ _ Heq).
  apply in_map, Hs.
Qed.

Lemma sublist_In {A : Type} (l1 l2 : list A) x :
  sublist l1 l2 -> In x l1 -> In x l2.
Proof.
  intros Hsub Hx. apply list_elem_of_In. apply list_elem_of_In in Hx.
  eapply sublist_subseteq; eassumption.
Qed.

(** With distinct keys, [remaining] is what [results] has beyond
    [selected]. *)
Lemma remaining_length sel results :
  sublist sel results ->
  List.NoDup (map result_key results) ->
  (length (List.filter (fun r => negb (py_in r sel)) results) + length sel
   = length results)%nat.
Proof.
  induction 1 as [| x l1 l2 Hsub IH | x l1 l2 Hsub IH]; intros Hnd.
  - reflexivity.
  - simpl in Hnd. inversion Hnd as [| ? ? Hx Hnd']; subst.
    cbn [List.filter]. unfold py_in at 1. cbn [existsb].
    rewrite dict_eq_refl. cbn [orb negb].
    rewrite (filter_ext_in _ (fun r => negb (py_in r l1))).
    + simpl. specialize (IH Hnd'). lia.
    + intros r Hr. unfold py_in. cbn [existsb].
      destruct (dict_eq r x) eqn:Heq; [| reflexivity].
      exfalso. apply Hx. rewrite <- (dict_eq_key _ _ Heq).
      apply in_map, Hr.
  - simpl in Hnd. inversion Hnd as [| ? ? Hx Hnd']; subst.
    cbn [List.filter]. rewrite py_in_other_key.
    + simpl. specialize (IH Hnd'). lia.
    + intros Hin. apply Hx. apply in_map_iff in Hin.
      destruct Hin as (s & Hkey & Hs). rewrite <- Hkey.
      apply in_map. eapply sublist_In; eassumption.
Qed.

Lemma slice_to_length {A : Type} (l : list A) k :
  0 <= k -> len (slice_to l k) = Z.min k (len l).
Proof.
  intros Hk. unfold slice_to.
  destruct (k <? 0) eqn:Hneg; [apply Z.ltb_lt in Hneg; lia |].
  unfold len. rewrite length_take. lia.
Qed.

Lemma slice_to_cons {A : Type} (x : A) l k :
  1 <= k -> exists l', slice_to (x :: l) k = x :: l'.
Proof.
  intros Hk. unfold slice_to.
  destruct (k <? 0) eqn:Hneg; [apply Z.ltb_lt in Hneg; lia |].
  destruct (Z.to_nat k) as [| n] eqn:Hn; [lia |].
  simpl. eauto.
Qed.

Lemma backfill_prefix results sel k :
  exists fill, backfill results sel k = sel ++ fill.
Proof.
  unfold backfill. destruct (len sel <? k).
  - eexists. reflexivity.
  - exists []. rewrite app_nil_r. reflexivity.
Qed.

Lemma backfill_length results sel k :
  sublist sel results ->
  List.NoDup (map result_key results) ->
  len sel <= Z.max 1 k ->
  0 <= k ->
  Z.min k (len (backfill results sel k)) = Z.min k (len results).
Proof.
  intros Hsub Hnd Hlen Hk.
  pose proof (remaining_length sel results Hsub Hnd) as Hrem.
  pose proof (sublist_length _ _ Hsub) as Hle.
  unfold backfill. destruct (len sel <? k) eqn:Hshort.
  - apply Z.ltb_lt in Hshort.
    rewrite len_app, slice_to_length by lia. unfold len in *. lia.
  - apply Z.ltb_ge in Hshort. unfold len in *. lia.
Qed.

End Selection.

(** Claim C5. For a ranked list whose entries have distinct keys (partition
    and identifier) and a maximum [max_results >= 0], the selection has
    exactly [min(max_results, len(results))] entries: the backfill makes up
    what the diversity pass leaves short, until the maximum is reached or
    the list is used up. *)
Theorem C5_selection_length results max_results :
  0 <= max_results ->
  List.NoDup (map result_key results) ->
  len (select_diverse_results results max_results)
  = Z.min max_results (len results).
Proof.
  intros Hk Hnd. destruct results as [| best rest].
  - unfold len. simpl. lia.
  - unfold select_diverse_results.
    destruct (diversity_pass best rest max_results) as [sel nc] eqn:Hpass.
    apply diversity_pass_spec in Hpass.
    destruct Hpass as (ext & -> & Hsub & _ & _ & Hlen).
    rewrite slice_to_length by exact Hk.
    apply backfill_length; try assumption.
    apply sublist_skip, Hsub.
Qed.

Lemma C5_selection_length_witness :
  len (select_diverse_results
         [Examples.a_result "a1" "A" f0_9; Examples.a_result "a2" "A" f0_9;
          Examples.a_result "a3" "A" f0_9; Examples.a_result "a4" "A" f0_9]
         3)
  = Z.min 3
      (len [Examples.a_result "a1" "A" f0_9; Examples.a_result "a2" "A" f0_9;
            Examples.a_result "a3" "A" f0_9; Examples.a_result "a4" "A" f0_9]).
Proof.
  apply C5_selection_length.
  - lia.
  - vm_compute. repeat constructor; simpl; intuition discriminate.
Defined.

(** Claim C6. For a non-empty ranked list and a maximum [k >= 1], the best
    match [results[0]] is in the selection and is its first entry. *)
Theorem C6_best_first r0 rest k :
  1 <= k ->
  head (select_diverse_results (r0 :: rest) k) = Some r0
  /\ In r0 (select_diverse_results (r0 :: rest) k).
Proof.
  intros Hk. unfold select_diverse_results.
  destruct (diversity_pass r0 rest k) as [sel nc] eqn:Hpass.
  apply diversity_pass_spec in Hpass.
  destruct Hpass as (ext & -> & _).
  destruct (backfill_prefix (r0 :: rest) (r0 :: ext) k) as (fill & ->).
  cbn [app].
  destruct (slice_to_cons r0 (ext ++ fill) k Hk) as (l' & ->).
  split; [reflexivity | left; reflexivity].
Qed.

Lemma C6_best_first_witness :
  head (select_diverse_results
          [Examples.a_result "id1" "faq" f0_9;
           Examples.a_result "id2" "concept" Examples.f0_3] 1)
  = Some (Examples.a_result "id1" "faq" f0_9)
  /\ In (Examples.a_result "id1" "faq" f0_9)
        (select_diverse_results
           [Examples.a_result "id1" "faq" f0_9;
            Examples.a_result "id2" "concept" Examples.f0_3] 1).
Proof.
  apply C6_best_first. lia.
Defined.

(** Claim C7. In the diversity pass, before any backfill, an entry is added
    after the best one only when its partition has fewer than 2 entries in
    the selection so far and the selection so far is shorter than
    [max_results]. So no partition has more than 2 entries in the part of
    the selection that the diversity pass produces, and the selection
    returned is cut from that part followed by the backfill. *)
Theorem C7_partition_cap best rest max_results :
  let selected := fst (diversity_pass best rest max_results) in
  (forall pre r post,
      selected = pre ++ r :: post -> pre <> [] ->
      (count_ns (namespace r) pre < 2)%nat /\ len pre < max_results)
  /\ (forall ns, (count_ns ns selected <= 2)%nat)
  /\ (exists fill,
        select_diverse_results (best :: rest) max_results
        = slice_to (selected ++ fill) max_results).
Proof.
  intros selected. subst selected.
  unfold select_diverse_results.
  destruct (diversity_pass best rest max_results) as [sel nc] eqn:Hpass.
  cbn [fst].
  apply diversity_pass_spec in Hpass.
  destruct Hpass as (ext & Hsel & _ & _ & Hcap & Hlen).
  split; [| split].
  - intros pre r post Hsplit Hpre.
    specialize (Hcap (namespace r)).
    rewrite Hsplit in Hcap, Hlen.
    rewrite count_ns_app, count_ns_cons in Hcap.
    rewrite len_app in Hlen. change (r :: post) with ([r] ++ post) in Hlen.
    rewrite len_app in Hlen.
    destruct (decide (namespace r = namespace r)); [| congruence].
    assert (1 <= len pre) by (destruct pre; [congruence | unfold len; simpl; lia]).
    pose proof (len_nonneg post). unfold len in *. simpl length in *.
    split; lia.
  - exact Hcap.
  - destruct (backfill_prefix (best :: rest) sel max_results) as (fill & ->).
    exists fill. reflexivity.
Qed.

Lemma C7_partition_cap_witness :
  (count_ns "A" [Examples.a_result "a1" "A" f0_9] < 2)%nat
  /\ len [Examples.a_result "a1" "A" f0_9] < 3.
Proof.
  apply (proj1 (C7_partition_cap
                  (Examples.a_result "a1" "A" f0_9)
                  [Examples.a_result "a2" "A" f0_9;
                   Examples.a_result "a3" "A" f0_9;
                   Examples.a_result "b" "B" Examples.f0_85] 3)
           [Examples.a_result "a1" "A" f0_9]
           (Examples.a_result "a2" "A" f0_9)
           [Examples.a_result "b" "B" Examples.f0_85]).
  - vm_compute. reflexivity.
  - discriminate.
Defined.

(** Claim C10. With [max_results = 0] the selection is empty for every
    ranked list, non-empty ones included: the final cut to [max_results]
    entries drops the best match too. *)
Theorem C10_zero_max results : select_diverse_results results 0 = [].
Proof.
  destruct results as [| best rest]; [reflexivity |].
  unfold select_diverse_results.
  destruct (diversity_pass best rest 0) as [sel nc].
  reflexivity.
Qed.

(** ** NaN scores *)

Section NaN.

Lemma confidence_of_nan x : is_nan x = true -> confidence_of x = "very_low".
Proof.
  intros H. unfold confidence_of. rewrite !fge_nan_l by exact H. reflexivity.
Qed.

Lemma confidence_nan_first r0 rest :
  is_nan (weighted_score r0) = true ->
  calculate_confidence_level (r0 :: rest) = ("very_low", S754_nan).
Proof.
  intros H. unfold calculate_confidence_level.
  rewrite confidence_of_nan by exact H.
  destruct (weighted_score r0); try discriminate.
  destruct (2 <=? len (r0 :: rest)); [| reflexivity].
  destruct (flt _ f0_1); reflexivity.
Qed.

Lemma confidence_score_not_nan results :
  Forall (fun r => is_nan (weighted_score r) = false) results ->
  is_nan (snd (calculate_confidence_level results)) = false.
Proof.
  intros Hnum. destruct results as [| r0 rest]; [reflexivity |].
  inversion Hnum as [| ? ? H0 _]; subst.
  unfold calculate_confidence_level. cbn [snd].
  destruct (2 <=? len (r0 :: rest)); [| exact H0].
  destruct (flt _ f0_1); [| exact H0].
  apply fadd_finite_not_nan; [exact H0 | reflexivity].
Qed.

(** The matches that carry a score are appended one by one. *)
Lemma append_results_scored ns config ms : forall all_results rest,
  append_results ns config all_results (map raw_of ms ++ rest)
  = append_results ns config
      (all_results ++ map (make_result ns config) ms) rest.
Proof.
  induction ms as [| m ms IH]; intros all_results rest.
  - cbn [map app]. rewrite app_nil_r. reflexivity.
  - cbn [map app append_results]. unfold build_result. cbn [raw_of raw_score].
    rewrite IH, <- app_assoc. destruct m. reflexivity.
Qed.

End NaN.

(** Claim C8, as the code has it. A NaN raw score is not replaced by 0.0:
    the weighted score of its match is NaN, and a list whose first entry has
    a NaN weighted score is classified very_low with a NaN score. When no
    weighted score is NaN, the verdict's score is not NaN and the ranked
    list is in non-increasing order. A match without a score is not given
    the score 0.0 either: it ends the loop over its partition's matches, so
    the matches before it are kept, and it and the matches after it add
    nothing. *)
Theorem C8_nan_propagates :
  (forall ns config m,
      is_nan (match_score m) = true ->
      is_nan (weighted_score (make_result ns config m)) = true)
  /\ (forall r0 rest,
        is_nan (weighted_score r0) = true ->
        calculate_confidence_level (r0 :: rest) = ("very_low", S754_nan))
  /\ (forall configs svc query_embedding,
        Forall (fun r => is_nan (weighted_score r) = false)
               (collect_results configs svc query_embedding) ->
        let ranked := search_all_namespaces configs svc query_embedding in
        is_nan (snd (calculate_confidence_level ranked)) = false
        /\ StronglySorted (key_ge weighted_score) ranked)
  /\ (forall ns config all_results ms bad later,
        raw_score bad = None ->
        append_results ns config all_results (map raw_of ms ++ bad :: later)
        = all_results ++ map (make_result ns config) ms
        /\ append_results ns config all_results (map raw_of ms)
           = all_results ++ map (make_result ns config) ms).
Proof.
  split; [| split; [| split]].
  - intros ns config m H. simpl. destruct (match_score m); try discriminate.
    reflexivity.
  - exact confidence_nan_first.
  - intros configs svc query_embedding Hnum ranked. subst ranked.
    unfold search_all_namespaces. split.
    + apply confidence_score_not_nan.
      eapply Permutation_Forall; [| exact Hnum].
      symmetry. apply sort_reverse_perm.
    + apply sort_reverse_sorted, Hnum.
  - intros ns config all_results ms bad later Hbad. split.
    + rewrite append_results_scored. cbn [append_results].
      unfold build_result. rewrite Hbad. reflexivity.
    + rewrite <- (app_nil_r (map raw_of ms)), append_results_scored.
      reflexivity.
Qed.

Lemma C8_nan_propagates_witness :
  calculate_confidence_level
    [Examples.a_result "bad" "faq" S754_nan;
     Examples.a_result "good" "dictionary" Examples.f0_5]
  = ("very_low", S754_nan).
Proof.
  apply (proj1 (proj2 C8_nan_propagates)). reflexivity.
Defined.

(** Claim C8 fails on the code. A NaN score from the first partition is
    ranked first, ahead of a match of score 0.5, and the verdict's score is
    NaN. A NaN score from the second of three partitions leaves the match of
    weighted score 0.3 ahead of the one of weighted score 0.747, so the
    other matches are not in descending order and the verdict is very_low.
    On both lists every comparison with the NaN key is false, so the
    interpreter's sort finds the reversed list to be one ascending run and
    leaves it as it is, as the model does. *)
Lemma C8_nan_counterexample :
  let ranked :=
    search_all_namespaces namespace_configs Examples.svc_nan [Examples.f0_5] in
  let ranked' :=
    search_all_namespaces namespace_configs Examples.svc_nan_between
      [Examples.f0_5] in
  map id ranked = ["bad"; "good"]
  /\ is_nan (snd (calculate_confidence_level ranked)) = true
  /\ map id ranked' = ["first"; "bad"; "third"]
  /\ map (fun r => fge (weighted_score r) Examples.f0_5) ranked'
     = [false; false; true]
  /\ fst (calculate_confidence_level ranked') = "very_low".
Proof. vm_compute. repeat split. Qed.

(** ** The orchestrator *)

Section Orchestrator.

Lemma collect_results_nothing configs svc query_embedding :
  (forall ns config,
      In (ns, config) configs ->
      (exists e, index_query svc query_embedding (top_k config) ns = Raise e)
      \/ index_query svc query_embedding (top_k config) ns = Return []) ->
  collect_results configs svc query_embedding = [].
Proof.
  rewrite collect_results_flat_map.
  induction configs as [| [ns config] cs IH]; intros H; [reflexivity |].
  cbn [flat_map]. rewrite IH by (intros; apply H; right; assumption).
  rewrite app_nil_r. unfold namespace_results, search_namespace.
  destruct (H ns config (or_introl eq_refl)) as [[e ->] | ->]; reflexivity.
Qed.

End Orchestrator.

(** Claim C9, as the code has it. When the embedding call fails,
    [search_and_answer] raises the same exception. When the embedding call
    succeeds and every partition's similarity search fails or returns no
    match, it returns the fixed answer with confidence none, confidence
    score 0 and an empty result list. *)
Theorem C9_degradation configs svc elapsed query :
  (forall e,
      embeddings_create svc query = Raise e ->
      search_and_answer configs svc elapsed query = Raise e)
  /\ (forall query_embedding,
        embeddings_create svc query = Return query_embedding ->
        (forall ns config,
            In (ns, config) configs ->
            (exists e,
                index_query svc query_embedding (top_k config) ns = Raise e)
            \/ index_query svc query_embedding (top_k config) ns = Return []) ->
        search_and_answer configs svc elapsed query
        = Return {| query := query;
                    answer := not_found_answer;
                    confidence := "none";
                    confidence_score := Int 0;
                    results := [];
                    sources := None;
                    execution_time := elapsed |}).
Proof.
  split.
  - intros e He. unfold search_and_answer, create_query_embedding.
    rewrite He. reflexivity.
  - intros query_embedding He Hfail.
    unfold search_and_answer, create_query_embedding, search_all_namespaces.
    rewrite He, (collect_results_nothing _ _ _ Hfail). reflexivity.
Qed.

Lemma C9_degradation_witness :
  search_and_answer namespace_configs Examples.svc_no_index f0_0 "question"
  = Return {| query := "question";
              answer := not_found_answer;
              confidence := "none";
              confidence_score := Int 0;
              results := [];
              sources := None;
              execution_time := f0_0 |}.
Proof.
  apply (proj2 (C9_degradation namespace_configs Examples.svc_no_index f0_0
                  "question") [Examples.f0_5]).
  - reflexivity.
  - intros ns config _. left. exists "index unavailable". reflexivity.
Defined.

(** Claim C9 fails on the code: when the embedding call fails,
    [search_and_answer] raises instead of returning the fixed answer. *)
Lemma C9_embedding_failure_counterexample :
  embeddings_create Examples.svc_no_embedding "question"
  = Raise "embedding failed"
  /\ search_and_answer namespace_configs Examples.svc_no_embedding f0_0
       "question"
     = Raise "embedding failed"
  /\ forall response,
       search_and_answer namespace_configs Examples.svc_no_embedding f0_0
         "question"
       <> Return response.
Proof. repeat split. intros response H. discriminate H. Qed.

(** * Further properties of the ranking *)

Lemma feq_refl_fge x : is_nan x = false -> fge x x = true.
Proof.
  intros H. unfold fge. change (fle x x = true). apply fle_spec. auto.
Qed.

Section RankingFacts.
Variable configs : list (string * NamespaceConfig).
Variable svc : Services.
Variable query_embedding : list float.

Lemma in_collect_results r :
  In r (collect_results configs svc query_embedding) ->
  exists ns config matches m,
    In (ns, config) configs
    /\ index_query svc query_embedding (top_k config) ns = Return matches
    /\ In m matches
    /\ r = make_result ns config m.
Proof.
  rewrite collect_results_flat_map, in_flat_map.
  intros ([ns config] & Hitem & Hr).
  unfold namespace_results, search_namespace in Hr. cbn [app] in Hr.
  destruct (index_query svc query_embedding (top_k config) ns)
    as [matches | e] eqn:Hq; [| destruct Hr].
  apply in_map_iff in Hr. destruct Hr as (m & <- & Hm).
  exists ns, config, matches, m. auto.
Qed.

Lemma in_search_all_namespaces r :
  In r (search_all_namespaces configs svc query_embedding)
  <-> In r (collect_results configs svc query_embedding).
Proof.
  unfold search_all_namespaces. split; apply Permutation_in.
  - apply sort_reverse_perm.
  - symmetry. apply sort_reverse_perm.
Qed.

Lemma collect_results_size :
  (forall ns config matches,
      In (ns, config) configs ->
      index_query svc query_embedding (top_k config) ns = Return matches ->
      len matches <= top_k config) ->
  len (collect_results configs svc query_embedding) <= total_top_k configs.
Proof.
  rewrite collect_results_flat_map.
  induction configs as [| [ns config] cs IH]; intros H.
  - unfold len. simpl. lia.
  - cbn [flat_map total_top_k fold_right snd]. rewrite len_app.
    fold (total_top_k cs).
    assert (IH' : len (flat_map (namespace_results svc query_embedding) cs)
                  <= total_top_k cs).
    { apply IH. intros ns' config' matches Hin. apply H. right. exact Hin. }
    assert (Hhead : len (namespace_results svc query_embedding (ns, config))
                    <= Z.max 0 (top_k config)).
    { unfold namespace_results, search_namespace. cbn [app].
      destruct (index_query svc query_embedding (top_k config) ns)
        as [matches | e] eqn:Hq.
      - specialize (H ns config matches (or_introl eq_refl) Hq).
        unfold len in *. rewrite length_map. lia.
      - unfold len. simpl. lia. }
    lia.
Qed.

(** Without NaN the first entry of the ranked list is a maximum. *)
Lemma sort_reverse_head_max (l : list Result) r0 rest :
  Forall (fun r => is_nan (weighted_score r) = false) l ->
  sort_reverse weighted_score l = r0 :: rest ->
  forall r, In r l -> fge (weighted_score r0) (weighted_score r) = true.
Proof.
  intros Hnum Hsort r Hr.
  pose proof (sort_reverse_sorted weighted_score l Hnum) as Hs.
  rewrite Hsort in Hs. inversion Hs as [| ? ? _ Hall]; subst.
  assert (Hin : In r (r0 :: rest)).
  { rewrite <- Hsort. eapply Permutation_in; [| exact Hr].
    symmetry. apply sort_reverse_perm. }
  destruct Hin as [<- | Hin].
  - apply feq_refl_fge. rewrite Forall_forall in Hnum. apply Hnum.
    apply list_elem_of_In. exact Hr.
  - rewrite Forall_forall in Hall. apply Hall, list_elem_of_In, Hin.
Qed.

End RankingFacts.

(** Extra X1. Ranking loses nothing and invents nothing: the ranked list is
    a permutation of the matches the partitions returned, in particular of
    the same length, whatever the scores are (NaN included). *)
Theorem X1_ranking_permutation configs svc query_embedding :
  Permutation (search_all_namespaces configs svc query_embedding)
              (flat_map (namespace_results svc query_embedding) configs)
  /\ len (search_all_namespaces configs svc query_embedding)
     = len (flat_map (namespace_results svc query_embedding) configs).
Proof.
  rewrite <- collect_results_flat_map. unfold search_all_namespaces.
  split.
  - apply sort_reverse_perm.
  - unfold len. f_equal. apply Permutation_length, sort_reverse_perm.
Qed.

(** Extra X2. Every ranked entry was built from a match that a configured
    partition returned: its namespace and description are that partition's,
    its raw score and metadata are the match's, and its weighted score is
    the raw score times the partition's weight. *)
Theorem X2_ranked_provenance configs svc query_embedding r :
  In r (search_all_namespaces configs svc query_embedding) ->
  exists ns config matches m,
    In (ns, config) configs
    /\ index_query svc query_embedding (top_k config) ns = Return matches
    /\ In m matches
    /\ namespace r = ns
    /\ namespace_desc r = description config
    /\ id r = match_id m
    /\ score r = match_score m
    /\ metadata r = match_metadata m
    /\ weighted_score r = fmul (score r) (weight config).
Proof.
  intros Hr. apply in_search_all_namespaces, in_collect_results in Hr.
  destruct Hr as (ns & config & matches & m & Hc & Hq & Hm & ->).
  exists ns, config, matches, m. repeat split; assumption.
Qed.

Lemma X2_ranked_provenance_witness :
  exists ns config matches m,
    In (ns, config) namespace_configs
    /\ index_query Examples.svc_three [Examples.f0_5] (top_k config) ns
       = Return matches
    /\ In m matches
    /\ namespace (make_result "concept"
                    {| weight := f0_9; top_k := 2; description := "개념설명" |}
                    (Examples.a_match "id2" Examples.f0_83)) = ns
    /\ namespace_desc (make_result "concept"
                    {| weight := f0_9; top_k := 2; description := "개념설명" |}
                    (Examples.a_match "id2" Examples.f0_83))
       = description config
    /\ id (make_result "concept"
                    {| weight := f0_9; top_k := 2; description := "개념설명" |}
                    (Examples.a_match "id2" Examples.f0_83)) = match_id m
    /\ score (make_result "concept"
                    {| weight := f0_9; top_k := 2; description := "개념설명" |}
                    (Examples.a_match "id2" Examples.f0_83)) = match_score m
    /\ metadata (make_result "concept"
                    {| weight := f0_9; top_k := 2; description := "개념설명" |}
                    (Examples.a_match "id2" Examples.f0_83))
       = match_metadata m
    /\ weighted_score (make_result "concept"
                    {| weight := f0_9; top_k := 2; description := "개념설명" |}
                    (Examples.a_match "id2" Examples.f0_83))
       = fmul (score (make_result "concept"
                    {| weight := f0_9; top_k := 2; description := "개념설명" |}
                    (Examples.a_match "id2" Examples.f0_83)))
              (weight config).
Proof.
  apply (X2_ranked_provenance namespace_configs Examples.svc_three
           [Examples.f0_5]).
  vm_compute. right. left. reflexivity.
Defined.

(** Extra X3. A partition whose similarity search raises is ignored: the
    ranked list is the one obtained without that partition, so the matches
    of the other partitions are all kept and ranked as before. *)
Theorem X3_failing_partition_ignored c1 ns config c2 svc query_embedding e :
  index_query svc query_embedding (top_k config) ns = Raise e ->
  search_all_namespaces (c1 ++ (ns, config) :: c2) svc query_embedding
  = search_all_namespaces (c1 ++ c2) svc query_embedding.
Proof.
  intros Hq. unfold search_all_namespaces. f_equal.
  rewrite !collect_results_flat_map, !flat_map_app. cbn [flat_map].
  unfold namespace_results at 2. unfold search_namespace. rewrite Hq.
  reflexivity.
Qed.

Lemma X3_failing_partition_ignored_witness :
  search_all_namespaces
    ([("faq", {| weight := f1_2; top_k := 3; description := "FAQ" |});
      ("dictionary",
       {| weight := f1_0; top_k := 2; description := "용어사전" |});
      ("concept", {| weight := f0_9; top_k := 2; description := "개념설명" |})]
     ++ ("chunk", {| weight := f0_8; top_k := 2; description := "교과서" |})
        :: [])
    Examples.svc_three [Examples.f0_5]
  = search_all_namespaces
      ([("faq", {| weight := f1_2; top_k := 3; description := "FAQ" |});
        ("dictionary",
         {| weight := f1_0; top_k := 2; description := "용어사전" |});
        ("concept",
         {| weight := f0_9; top_k := 2; description := "개념설명" |})]
       ++ [])
      Examples.svc_three [Examples.f0_5].
Proof.
  apply (X3_failing_partition_ignored _ _ _ _ _ _ "unavailable").
  reflexivity.
Defined.

(** Extra X4. When the index returns at most [top_k] matches per query, the
    ranked list has at most as many entries as the configured [top_k]
    values add up to. *)
Theorem X4_ranked_size_bound configs svc query_embedding :
  (forall ns config matches,
      In (ns, config) configs ->
      index_query svc query_embedding (top_k config) ns = Return matches ->
      len matches <= top_k config) ->
  len (search_all_namespaces configs svc query_embedding)
  <= total_top_k configs.
Proof.
  intros H. unfold search_all_namespaces.
  replace (len (sort_reverse weighted_score
                  (collect_results configs svc query_embedding)))
    with (len (collect_results configs svc query_embedding)).
  - apply collect_results_size, H.
  - unfold len. f_equal. symmetry. apply Permutation_length, sort_reverse_perm.
Qed.

Lemma X4_ranked_size_bound_witness :
  len (search_all_namespaces Examples.two_partitions Examples.svc_ties
         [Examples.f0_5])
  <= total_top_k Examples.two_partitions.
Proof.
  apply X4_ranked_size_bound.
  intros ns config matches [Hin | [Hin | []]] Hq;
    inversion Hin; subst; vm_compute in Hq; inversion Hq; subst;
    vm_compute; discriminate.
Defined.

(** * Further properties of the confidence verdict *)

Section ConfidenceFacts.

Lemma fge_weaken x c d : fge x c = true -> fle d c = true -> fge x d = true.
Proof. unfold fge. intros Hc Hd. exact (fle_trans _ _ _ Hd Hc). Qed.

Lemma fge_mono x y c : fge x c = true -> fle x y = true -> fge y c = true.
Proof. unfold fge. intros Hc Hxy. exact (fle_trans _ _ _ Hc Hxy). Qed.

(** The rank of a level read off the thresholds. *)
Lemma confidence_rank x :
  (level_rank (confidence_of x) = 4%nat <-> fge x f0_8 = true)
  /\ ((3 <= level_rank (confidence_of x))%nat <-> fge x f0_6 = true)
  /\ ((2 <= level_rank (confidence_of x))%nat <-> fge x f0_4 = true)
  /\ (1 <= level_rank (confidence_of x))%nat.
Proof.
  unfold confidence_of.
  destruct (fge x f0_8) eqn:H8.
  - pose proof (fge_weaken _ _ f0_6 H8 eq_refl) as H6.
    pose proof (fge_weaken _ _ f0_4 H8 eq_refl) as H4.
    rewrite H6, H4. vm_compute. intuition (try lia; try discriminate).
  - destruct (fge x f0_6) eqn:H6.
    + pose proof (fge_weaken _ _ f0_4 H6 eq_refl) as H4.
      rewrite H4. vm_compute. intuition (try lia; try discriminate).
    + destruct (fge x f0_4) eqn:H4; vm_compute;
        intuition (try lia; try discriminate).
Qed.

Lemma confidence_of_mono x y :
  fle x y = true ->
  (level_rank (confidence_of x) <= level_rank (confidence_of y))%nat.
Proof.
  intros Hxy.
  destruct (confidence_rank x) as (Hx8 & Hx6 & Hx4 & Hx1).
  destruct (confidence_rank y) as (Hy8 & Hy6 & Hy4 & Hy1).
  assert (Hle4 : (level_rank (confidence_of x) <= 4)%nat).
  { unfold confidence_of.
    destruct (fge x f0_8), (fge x f0_6), (fge x f0_4); vm_compute; lia. }
  destruct (fge x f0_8) eqn:H8.
  { rewrite (proj2 Hy8 (fge_mono _ _ _ H8 Hxy)). exact Hle4. }
  destruct (fge x f0_6) eqn:H6.
  { pose proof (proj2 Hy6 (fge_mono _ _ _ H6 Hxy)).
    assert (level_rank (confidence_of x) <> 4%nat)
      by (intros E; apply Hx8 in E; discriminate).
    lia. }
  destruct (fge x f0_4) eqn:H4.
  { pose proof (proj2 Hy4 (fge_mono _ _ _ H4 Hxy)).
    assert (~ (3 <= level_rank (confidence_of x))%nat)
      by (intros E; apply Hx6 in E; discriminate).
    lia. }
  assert (~ (2 <= level_rank (confidence_of x))%nat)
    by (intros E; apply Hx4 in E; discriminate).
  lia.
Qed.

Lemma confidence_score_upto_three results :
  calculate_confidence_level (firstn 3 results)
  = calculate_confidence_level results.
Proof.
  destruct results as [| r0 [| r1 [| r2 rest]]]; try reflexivity.
  unfold calculate_confidence_level.
  replace (2 <=? len (firstn 3 (r0 :: r1 :: r2 :: rest))) with true
    by reflexivity.
  replace (2 <=? len (r0 :: r1 :: r2 :: rest)) with true.
  - reflexivity.
  - symmetry. apply Z.leb_le. unfold len. simpl length. lia.
Qed.

End ConfidenceFacts.

(** Extra X5. Ranking and classification together: when no weighted score
    is NaN, the level is high exactly when some returned match has a
    weighted score of at least 0.8, at least medium exactly when some match
    reaches 0.6, and at least low exactly when some match reaches 0.4. *)
Theorem X5_level_tracks_best_match configs svc query_embedding :
  Forall (fun r => is_nan (weighted_score r) = false)
         (collect_results configs svc query_embedding) ->
  let level :=
    fst (calculate_confidence_level
           (search_all_namespaces configs svc query_embedding)) in
  let reached c :=
    exists r, In r (collect_results configs svc query_embedding)
              /\ fge (weighted_score r) c = true in
  (level = "high" <-> reached f0_8)
  /\ ((3 <= level_rank level)%nat <-> reached f0_6)
  /\ ((2 <= level_rank level)%nat <-> reached f0_4).
Proof.
  intros Hnum level reached. subst level reached.
  unfold search_all_namespaces.
  destruct (sort_reverse weighted_score
              (collect_results configs svc query_embedding))
    as [| r0 rest] eqn:Hsort.
  - assert (Hempty : collect_results configs svc query_embedding = []).
    { apply Permutation_nil. rewrite <- Hsort. apply sort_reverse_perm. }
    rewrite Hempty. cbn [calculate_confidence_level fst].
    repeat split; try (intros (r & [] & _)); try discriminate;
      vm_compute; lia.
  - rewrite confidence_level_of_best.
    pose proof (sort_reverse_head_max _ _ _ Hnum Hsort) as Hmax.
    assert (Hin0 : In r0 (collect_results configs svc query_embedding)).
    { eapply Permutation_in; [apply sort_reverse_perm |].
      rewrite Hsort. left. reflexivity. }
    destruct (confidence_rank (weighted_score r0)) as (H8 & H6 & H4 & _).
    assert (Hup : forall c,
               (exists r, In r (collect_results configs svc query_embedding)
                          /\ fge (weighted_score r) c = true)
               <-> fge (weighted_score r0) c = true).
    { intros c. split.
      - intros (r & Hr & Hc). eapply fge_mono; [exact Hc |].
        exact (Hmax r Hr).
      - intros Hc. exists r0. auto. }
    rewrite !Hup. rewrite <- H8. repeat split; try tauto.
    + intros ->. reflexivity.
    + unfold confidence_of.
      destruct (fge (weighted_score r0) f0_8); [reflexivity |].
      destruct (fge (weighted_score r0) f0_6);
        [| destruct (fge (weighted_score r0) f0_4)];
        vm_compute; discriminate.
Qed.

Lemma X5_level_tracks_best_match_witness :
  fst (calculate_confidence_level
         (search_all_namespaces namespace_configs Examples.svc_three
            [Examples.f0_5]))
  = "high"
  <-> exists r,
        In r (collect_results namespace_configs Examples.svc_three
                [Examples.f0_5])
        /\ fge (weighted_score r) f0_8 = true.
Proof.
  apply (proj1 (X5_level_tracks_best_match namespace_configs
                  Examples.svc_three [Examples.f0_5]
                  ltac:(vm_compute; repeat constructor))).
Defined.

(** Extra X6. The level never goes down when the best weighted score goes
    up: if [best <= best'] then the level for [best'] is at least the level
    for [best], whatever the other entries are. *)
Theorem X6_level_monotone r0 rest r0' rest' :
  fle (weighted_score r0) (weighted_score r0') = true ->
  (level_rank (fst (calculate_confidence_level (r0 :: rest)))
   <= level_rank (fst (calculate_confidence_level (r0' :: rest'))))%nat.
Proof.
  intros H. rewrite !confidence_level_of_best. apply confidence_of_mono, H.
Qed.

Lemma X6_level_monotone_witness :
  (level_rank (fst (calculate_confidence_level
                      [Examples.a_result "a" "faq" Examples.f0_5]))
   <= level_rank (fst (calculate_confidence_level
                         [Examples.a_result "b" "faq" Examples.f0_7;
                          Examples.a_result "c" "concept" Examples.f0_3])))%nat.
Proof.
  apply X6_level_monotone. vm_compute. reflexivity.
Defined.

(** Extra X7. Only the first three entries count: the verdict of a ranked
    list is the verdict of its first three entries, and the level is none
    exactly when the list is empty. *)
Theorem X7_verdict_of_top_three results :
  calculate_confidence_level results
  = calculate_confidence_level (firstn 3 results)
  /\ (fst (calculate_confidence_level results) = "none" <-> results = []).
Proof.
  split.
  - symmetry. apply confidence_score_upto_three.
  - destruct results as [| r0 rest]; [tauto |].
    rewrite confidence_level_of_best. unfold confidence_of.
    split; [| discriminate].
    destruct (fge (weighted_score r0) f0_8); [discriminate |].
    destruct (fge (weighted_score r0) f0_6); [discriminate |].
    destruct (fge (weighted_score r0) f0_4); discriminate.
Qed.

(** * Further properties of the selection *)

Section SelectionFacts.

Lemma slice_to_take {A : Type} (l : list A) k :
  exists n, slice_to l k = take n l.
Proof. unfold slice_to. destruct (k <? 0); eauto. Qed.


Lemma py_in_In r l : In r l -> py_in r l = true.
Proof.
  intros H. unfold py_in. apply existsb_exists. exists r.
  split; [exact H | apply dict_eq_refl].
Qed.

Lemma map_key_inj (l : list Result) a b :
  List.NoDup (map result_key l) -> In a l -> In b l ->
  result_key a = result_key b -> a = b.
Proof.
  induction l as [| x l IH]; intros Hnd Ha Hb Hk; [destruct Ha |].
  simpl in Hnd. inversion Hnd as [| ? ? Hx Hnd']; subst.
  destruct Ha as [-> | Ha], Hb as [-> | Hb]; auto.
  - exfalso. apply Hx. rewrite Hk. apply in_map, Hb.
  - exfalso. apply Hx. rewrite <- Hk. apply in_map, Ha.
Qed.

(** The diversity picks are candidates: they pass the threshold. *)
Lemma diversity_pass_picks best rest k sel nc :
  diversity_pass best rest k = (sel, nc) ->
  exists ext,
    sel = best :: ext
    /\ sublist ext
         (List.filter
            (fun r => fge (weighted_score r)
                          (fmul (weighted_score best) f0_8)) rest).
Proof.
  unfold diversity_pass. intros H. apply diversity_loop_spec in H.
  destruct H as (ext & -> & Hsub & _). exists ext. auto.
Qed.

(** The selection is a part of the diversity portion followed by a part of
    the remaining entries; backfill entries only follow the whole diversity
    portion, and only when it is short of the maximum. *)
Lemma select_parts best rest k :
  let sel := fst (diversity_pass best rest k) in
  exists pass fill,
    select_diverse_results (best :: rest) k = pass ++ fill
    /\ sublist pass sel
    /\ sublist fill
         (List.filter (fun r => negb (py_in r sel)) (best :: rest))
    /\ (fill <> [] -> len sel < k /\ pass = sel).
Proof.
  intros sel. subst sel. unfold select_diverse_results.
  destruct (diversity_pass best rest k) as [sel nc]. cbn [fst].
  destruct (slice_to_take (backfill (best :: rest) sel k) k) as (n & ->).
  unfold backfill. destruct (len sel <? k) eqn:Hshort.
  - apply Z.ltb_lt in Hshort.
    destruct (slice_to_take
                (List.filter (fun r => negb (py_in r sel)) (best :: rest))
                (k - len sel)) as (m & ->).
    rewrite take_app.
    exists (take n sel), (take (n - length sel) (take m
              (List.filter (fun r => negb (py_in r sel)) (best :: rest)))).
    repeat split.
    + apply sublist_take.
    + transitivity (take m (List.filter (fun r => negb (py_in r sel))
                              (best :: rest))); apply sublist_take.
    + exact Hshort.
    + apply take_ge.
      destruct (n - length sel)%nat eqn:Hn; [| lia].
      exfalso. apply H. reflexivity.
  - exists (take n sel), []. rewrite app_nil_r.
    split; [reflexivity | split; [apply sublist_take | split]].
    + apply sublist_nil_l.
    + intros H. exfalso. apply H. reflexivity.
Qed.

Lemma diversity_pass_sublist best rest k :
  sublist (fst (diversity_pass best rest k)) (best :: rest).
Proof.
  destruct (diversity_pass best rest k) as [sel nc] eqn:Hpass. cbn [fst].
  apply diversity_pass_spec in Hpass.
  destruct Hpass as (ext & -> & Hsub & _). apply sublist_skip, Hsub.
Qed.

Lemma select_incl results k :
  incl (select_diverse_results results k) results.
Proof.
  destruct results as [| best rest]; [intros r [] |].
  destruct (select_parts best rest k) as (pass & fill & -> & Hp & Hf & _).
  intros r Hr. apply in_app_or in Hr. destruct Hr as [Hr | Hr].
  - eapply sublist_In; [| exact Hr].
    transitivity (fst (diversity_pass best rest k));
      [exact Hp | apply diversity_pass_sublist].
  - eapply sublist_In; [| exact Hr].
    etransitivity; [exact Hf | apply sublist_List_filter].
Qed.

Lemma select_distinct results k :
  List.NoDup (map result_key results) ->
  List.NoDup (map result_key (select_diverse_results results k)).
Proof.
  intros Hnd. destruct results as [| best rest]; [constructor |].
  destruct (select_parts best rest k) as (pass & fill & -> & Hp & Hf & Hfill).
  pose proof (diversity_pass_sublist best rest k) as Hsel.
  set (sel := fst (diversity_pass best rest k)) in *.
  assert (Hpr : sublist pass (best :: rest)) by (transitivity sel; assumption).
  assert (Hfr : sublist fill (best :: rest))
    by (etransitivity; [exact Hf | apply sublist_List_filter]).
  apply NoDup_ListNoDup. apply NoDup_ListNoDup in Hnd.
  rewrite map_app. apply NoDup_app. repeat split.
  - eapply sublist_NoDup; [exact Hnd |]. apply fmap_sublist, Hpr.
  - intros x Hxp Hxf.
    apply list_elem_of_In, in_map_iff in Hxp. destruct Hxp as (p & Hkp & Hp').
    apply list_elem_of_In, in_map_iff in Hxf. destruct Hxf as (f & Hkf & Hf').
    assert (Hne : fill <> []) by (intros ->; destruct Hf').
    destruct (Hfill Hne) as (_ & ->).
    assert (p = f).
    { apply (map_key_inj (best :: rest)).
      - apply NoDup_ListNoDup, Hnd.
      - eapply sublist_In; [exact Hsel | exact Hp'].
      - eapply sublist_In; [exact Hfr | exact Hf'].
      - congruence. }
    subst f.
    assert (Hin : In p (List.filter (fun r => negb (py_in r sel))
                          (best :: rest)))
      by (eapply sublist_In; [exact Hf | exact Hf']).
    apply filter_In in Hin. destruct Hin as (_ & Hnot).
    rewrite (py_in_In _ _ Hp') in Hnot. discriminate.
  - eapply sublist_NoDup; [exact Hnd |]. apply fmap_sublist, Hfr.
Qed.

Lemma select_len_le results k :
  (0 <= k -> len (select_diverse_results results k) <= k).
Proof.
  intros Hk. destruct results as [| best rest].
  - unfold len. simpl. lia.
  - unfold select_diverse_results.
    destruct (diversity_pass best rest k) as [sel nc].
    rewrite slice_to_length by exact Hk. lia.
Qed.

Lemma select_len results k :
  0 <= k ->
  List.NoDup (map result_key results) ->
  len (select_diverse_results results k) = Z.min k (len results).
Proof.
  intros Hk Hnd. destruct results as [| best rest].
  - unfold len. simpl. lia.
  - unfold select_diverse_results.
    destruct (diversity_pass best rest k) as [sel nc] eqn:Hpass.
    apply diversity_pass_spec in Hpass.
    destruct Hpass as (ext & -> & Hsub & _ & _ & Hlen).
    rewrite slice_to_length by exact Hk.
    apply backfill_length; try assumption.
    apply sublist_skip, Hsub.
Qed.

End SelectionFacts.

(** Extra X8. The selection contains only entries of the ranked list, for
    every list and every maximum. *)
Theorem X8_selection_from_results results max_results :
  incl (select_diverse_results results max_results) results.
Proof. apply select_incl. Qed.



(** Extra X10. The selection never has more than [max_results] entries when
    [max_results >= 0], whether or not the entries are distinct, and it is
    empty when [max_results] is negative. *)
Theorem X10_selection_size results max_results :
  (0 <= max_results ->
   len (select_diverse_results results max_results) <= max_results)
  /\ (max_results < 0 -> select_diverse_results results max_results = []).
Proof.
  split.
  - intros Hk. destruct results as [| best rest].
    + unfold len. simpl. lia.
    + unfold select_diverse_results.
      destruct (diversity_pass best rest max_results) as [sel nc].
      rewrite slice_to_length by exact Hk. lia.
  - intros Hk. destruct results as [| best rest]; [reflexivity |].
    unfold select_diverse_results, diversity_pass.
    set (cands := List.filter _ rest).
    assert (Hloop : diversity_loop max_results cands [best]
                      (count_incr ∅ (namespace best))
                    = ([best], count_incr ∅ (namespace best))).
    { destruct cands as [| r cs]; [reflexivity |]. cbn [diversity_loop].
      replace (len [best] >=? max_results) with true; [reflexivity |].
      symmetry. rewrite Z.geb_leb. apply Z.leb_le. unfold len. simpl. lia. }
    rewrite Hloop. unfold backfill.
    replace (len [best] <? max_results) with false
      by (symmetry; apply Z.ltb_ge; unfold len; simpl; lia).
    unfold slice_to. replace (max_results <? 0) with true
      by (symmetry; apply Z.ltb_lt; exact Hk).
    replace (Z.to_nat (len [best] + max_results)) with 0%nat
      by (unfold len; simpl; lia).
    reflexivity.
Qed.

Lemma X10_selection_size_witness :
  len (select_diverse_results
         [Examples.a_result "a1" "A" f0_9; Examples.a_result "a1" "A" f0_9;
          Examples.a_result "a1" "A" f0_9] 2)
  <= 2.
Proof.
  apply (proj1 (X10_selection_size _ 2)). lia.
Defined.

(** Extra X11. Every entry that the diversity pass adds after the best one
    has a weighted score of at least 0.8 times the best weighted score. *)
Theorem X11_picks_meet_threshold best rest max_results :
  Forall (fun r => fge (weighted_score r)
                       (fmul (weighted_score best) f0_8) = true)
         (tl (fst (diversity_pass best rest max_results))).
Proof.
  destruct (diversity_pass best rest max_results) as [sel nc] eqn:Hpass.
  apply diversity_pass_picks in Hpass. destruct Hpass as (ext & -> & Hsub).
  cbn [fst tl]. apply Forall_forall. intros r Hr.
  assert (Hin : In r (List.filter
                        (fun r => fge (weighted_score r)
                                      (fmul (weighted_score best) f0_8))
                        rest)).
  { eapply sublist_In; [exact Hsub |]. apply list_elem_of_In, Hr. }
  apply filter_In in Hin. tauto.
Qed.

(** Extra X12. A ranked list with distinct keys (partition and identifier)
    gives a selection with distinct keys: no match is selected twice, by
    the diversity pass or by the backfill. *)
Theorem X12_selection_distinct results max_results :
  List.NoDup (map result_key results) ->
  List.NoDup (map result_key (select_diverse_results results max_results)).
Proof. apply select_distinct. Qed.

Lemma X12_selection_distinct_witness :
  List.NoDup
    (map result_key
       (select_diverse_results
          [Examples.a_result "a1" "A" f0_9; Examples.a_result "a2" "A" f0_9;
           Examples.a_result "a3" "A" f0_9;
           Examples.a_result "b" "B" Examples.f0_3] 4)).
Proof.
  apply X12_selection_distinct.
  vm_compute. repeat constructor; simpl; intuition discriminate.
Defined.

(** Extra X13. When the ranked list has distinct keys and no more than
    [max_results] entries, every entry is selected: the selection is a
    permutation of the list. *)
Theorem X13_all_selected_when_few results max_results :
  len results <= max_results ->
  List.NoDup (map result_key results) ->
  Permutation (select_diverse_results results max_results) results.
Proof.
  intros Hfew Hnd. apply NoDup_Permutation_bis.
  - eapply NoDup_map_inv. apply select_distinct, Hnd.
  - pose proof (len_nonneg results).
    pose proof (select_len results max_results ltac:(lia) Hnd) as Hlen.
    unfold len in *. lia.
  - apply select_incl.
Qed.

Lemma X13_all_selected_when_few_witness :
  Permutation
    (select_diverse_results
       [Examples.a_result "a1" "A" f0_9; Examples.a_result "a2" "A" f0_9;
        Examples.a_result "a3" "A" f0_9] 3)
    [Examples.a_result "a1" "A" f0_9; Examples.a_result "a2" "A" f0_9;
     Examples.a_result "a3" "A" f0_9].
Proof.
  apply X13_all_selected_when_few.
  - vm_compute. discriminate.
  - vm_compute. repeat constructor; simpl; intuition discriminate.
Defined.

(** * Further properties of the orchestrator *)

Section OrchestratorFacts.

Lemma select_head r0 rest k :
  1 <= k -> head (select_diverse_results (r0 :: rest) k) = Some r0.
Proof.
  intros Hk. unfold select_diverse_results.
  destruct (diversity_pass r0 rest k) as [sel nc] eqn:Hpass.
  apply diversity_pass_spec in Hpass. destruct Hpass as (ext & -> & _).
  destruct (backfill_prefix (r0 :: rest) (r0 :: ext) k) as (fill & ->).
  cbn [app].
  destruct (slice_to_cons r0 (ext ++ fill) k Hk) as (l' & ->).
  reflexivity.
Qed.

Lemma string_append_self t s : String.append t s = t -> s = EmptyString.
Proof.
  induction t as [| c t IH]; simpl; intros H; [exact H |].
  inversion H. auto.
Qed.

Lemma string_append_empty t : String.append t EmptyString = t.
Proof.
  induction t as [| c t IH]; [reflexivity |].
  change (String c (String.append t EmptyString) = String c t).
  f_equal. exact IH.
Qed.

(** The caveat is empty exactly from the medium level up. *)
Lemma confidence_message_empty x :
  confidence_message (confidence_of x) = EmptyString <-> fge x f0_6 = true.
Proof.
  unfold confidence_of.
  destruct (fge x f0_8) eqn:H8.
  - rewrite (fge_weaken _ _ f0_6 H8 eq_refl). split; reflexivity.
  - destruct (fge x f0_6); [split; reflexivity |].
    destruct (fge x f0_4); split; intros H; discriminate H.
Qed.

End OrchestratorFacts.

(** Extra X14. Once the embedding call has returned, [search_and_answer]
    returns a response and never raises, whatever the similarity searches
    and the synthesis do. The response carries the query, the verdict of the
    ranked list and the selection of at most three entries headed by the
    top-ranked one; its confidence is none, and its sources are absent,
    exactly when nothing was found. *)
Theorem X14_search_and_answer_returns configs svc elapsed q query_embedding :
  embeddings_create svc q = Return query_embedding ->
  let ranked := search_all_namespaces configs svc query_embedding in
  exists response,
    search_and_answer configs svc elapsed q = Return response
    /\ query response = q
    /\ execution_time response = elapsed
    /\ confidence response = fst (calculate_confidence_level ranked)
    /\ results response = select_diverse_results ranked 3
    /\ len (results response) <= 3
    /\ head (results response) = head ranked
    /\ (confidence response = "none" <-> ranked = [])
    /\ (sources response = None <-> ranked = [])
    /\ (ranked <> [] ->
        sources response = Some (map namespace_desc (results response))
        /\ confidence_score response
           = Float (snd (calculate_confidence_level ranked))).
Proof.
  intros He ranked. subst ranked.
  unfold search_and_answer, create_query_embedding. rewrite He.
  destruct (search_all_namespaces configs svc query_embedding)
    as [| r0 rest] eqn:Hranked.
  - eexists. split; [reflexivity |]. cbn.
    repeat split; try reflexivity; try tauto; try (unfold len; simpl; lia).
  - destruct (calculate_confidence_level (r0 :: rest))
      as [level level_score] eqn:Hverdict.
    eexists. split; [reflexivity |]. cbn [query execution_time confidence
      results sources confidence_score fst snd].
    assert (Hlevel : level = confidence_of (weighted_score r0)).
    { change level with (fst (level, level_score)). rewrite <- Hverdict.
      apply confidence_level_of_best. }
    repeat split; try reflexivity; try discriminate.
    + apply select_len_le. lia.
    + apply select_head. lia.
    + rewrite Hlevel. unfold confidence_of.
      destruct (fge (weighted_score r0) f0_8); [discriminate |].
      destruct (fge (weighted_score r0) f0_6); [discriminate |].
      destruct (fge (weighted_score r0) f0_4); discriminate.
Qed.

Lemma X14_search_and_answer_returns_witness :
  exists response,
    search_and_answer namespace_configs Examples.svc_three f0_0 "question"
    = Return response
    /\ len (results response) <= 3.
Proof.
  destruct (X14_search_and_answer_returns namespace_configs Examples.svc_three
              f0_0 "question" [Examples.f0_5] eq_refl)
    as (response & Hret & _ & _ & _ & _ & Hlen & _).
  exists response. split; [exact Hret | exact Hlen].
Defined.

(** Extra X15. The answer text when something was found. If the synthesis
    returns a text, the answer starts with that text, and it is that text
    unchanged exactly when the best weighted score is at least 0.6 (level
    medium or high); below that a caveat is appended. If the synthesis
    raises, the answer is the fixed apology and the call still returns. *)
Theorem X15_answer_text configs svc elapsed q query_embedding r0 rest :
  embeddings_create svc q = Return query_embedding ->
  search_all_namespaces configs svc query_embedding = r0 :: rest ->
  let selected := select_diverse_results (r0 :: rest) 3 in
  let level := confidence_of (weighted_score r0) in
  exists response,
    search_and_answer configs svc elapsed q = Return response
    /\ (forall text,
          chat_completion svc q selected level = Return text ->
          answer response = String.append text (confidence_message level)
          /\ (answer response = text
              <-> fge (weighted_score r0) f0_6 = true))
    /\ (forall e,
          chat_completion svc q selected level = Raise e ->
          answer response
          = "답변을 생성하는 중에 문제가 발생했어요. 다시 시도해주세요.").
Proof.
  intros He Hranked selected level. subst selected level.
  unfold search_and_answer, create_query_embedding. rewrite He, Hranked.
  destruct (calculate_confidence_level (r0 :: rest))
    as [level level_score] eqn:Hverdict.
  assert (Hlevel : level = confidence_of (weighted_score r0)).
  { change level with (fst (level, level_score)). rewrite <- Hverdict.
    apply confidence_level_of_best. }
  subst level. eexists. split; [reflexivity |].
  cbn [answer]. unfold generate_composite_answer. split.
  - intros text ->. split; [reflexivity |].
    rewrite <- confidence_message_empty. split.
    + apply string_append_self.
    + intros ->. apply string_append_empty.
  - intros e ->. reflexivity.
Qed.

Lemma X15_answer_text_witness :
  exists response,
    search_and_answer namespace_configs Examples.svc_three f0_0 "question"
    = Return response
    /\ answer response = "answer".
Proof.
  destruct (X15_answer_text namespace_configs Examples.svc_three f0_0
              "question" [Examples.f0_5] _ _ eq_refl
              ltac:(vm_compute; reflexivity))
    as (response & Hret & Htext & _).
  exists response. split; [exact Hret |].
  apply (Htext "answer" eq_refl). vm_compute. reflexivity.
Defined.

(** * The search context read off a response *)

Section SearchContextFacts.

Lemma context_step_primary c r :
  primary_namespace (context_step c r) = primary_namespace c.
Proof.
  unfold context_step. repeat case_bool_decide; try reflexivity.
  destruct (metadata r !! "word"); [case_bool_decide |]; reflexivity.
Qed.

Lemma context_step_faq c r :
  has_faq_result (context_step c r)
  = has_faq_result c || bool_decide (namespace r = "faq").
Proof.
  unfold context_step. destruct (decide (namespace r = "dictionary")) as [E | E].
  - rewrite (bool_decide_eq_true_2 _ E).
    rewrite bool_decide_eq_false_2 by (rewrite E; discriminate).
    rewrite orb_false_r.
    destruct (metadata r !! "word"); [case_bool_decide |]; reflexivity.
  - rewrite (bool_decide_eq_false_2 _ E).
    case_bool_decide; cbn; [rewrite orb_true_r | rewrite orb_false_r];
      reflexivity.
Qed.

Lemma context_step_words c r :
  exists ws,
    dictionary_words (context_step c r) = dictionary_words c ++ ws
    /\ (length ws <= count_ns "dictionary" [r])%nat
    /\ (forall w, In w ws <->
                  w <> EmptyString /\ namespace r = "dictionary"
                  /\ metadata r !! "word" = Some w).
Proof.
  unfold context_step. rewrite count_ns_cons.
  destruct (decide (namespace r = "dictionary")) as [E | E].
  - rewrite (bool_decide_eq_true_2 _ E).
    destruct (metadata r !! "word") as [word |] eqn:Hw.
    + case_bool_decide as Hempty.
      * exists []. rewrite app_nil_r.
        split; [reflexivity | split; [simpl; lia |]].
        intros w. split; [intros [] |].
        intros (Hne & _ & Hsome). congruence.
      * exists [word]. split; [reflexivity | split; [simpl; lia |]].
        intros w. split.
        -- intros [<- | []]. auto.
        -- intros (_ & _ & Hsome). left. congruence.
    + exists []. rewrite app_nil_r.
      split; [reflexivity | split; [simpl; lia |]].
      intros w. split; [intros [] |].
      intros (_ & _ & Hsome). discriminate.
  - rewrite (bool_decide_eq_false_2 _ E).
    exists []. rewrite app_nil_r.
    split; [case_bool_decide; reflexivity | split; [simpl; lia |]].
    intros w. split; [intros [] |].
    intros (_ & Hd & _). contradiction.
Qed.

Lemma fold_context_step l : forall c,
  let c' := fold_left context_step l c in
  primary_namespace c' = primary_namespace c
  /\ has_faq_result c'
     = has_faq_result c
       || existsb (fun r => bool_decide (namespace r = "faq")) l
  /\ exists ws,
       dictionary_words c' = dictionary_words c ++ ws
       /\ (length ws <= count_ns "dictionary" l)%nat
       /\ (forall w, In w ws <->
                     w <> EmptyString
                     /\ exists r, In r l /\ namespace r = "dictionary"
                                  /\ metadata r !! "word" = Some w).
Proof.
  induction l as [| r l IH]; intros c; cbn [fold_left].
  - split; [reflexivity | split; [cbn; rewrite orb_false_r; reflexivity |]].
    exists []. rewrite app_nil_r.
    split; [reflexivity | split; [simpl; lia |]].
    intros w. split; [intros [] | intros (_ & r & [] & _)].
  - destruct (IH (context_step c r)) as (Hp & Hf & ws & Hw & Hlen & Hin).
    destruct (context_step_words c r) as (ws0 & Hw0 & Hlen0 & Hin0).
    split; [rewrite Hp; apply context_step_primary |].
    split.
    { rewrite Hf, context_step_faq. cbn [existsb].
      rewrite orb_assoc. reflexivity. }
    exists (ws0 ++ ws). split; [| split].
    + rewrite Hw, Hw0, app_assoc. reflexivity.
    + rewrite length_app. change (r :: l) with ([r] ++ l).
      rewrite count_ns_app. lia.
    + intros w. rewrite in_app_iff, Hin, Hin0. split.
      * intros [(Hne & Hd & Hs) | (Hne & r' & Hr' & Hd & Hs)].
        -- split; [exact Hne |]. exists r. split; [left; reflexivity | auto].
        -- split; [exact Hne |]. exists r'. split; [right; exact Hr' | auto].
      * intros (Hne & r' & [<- | Hr'] & Hd & Hs).
        -- left. auto.
        -- right. split; [exact Hne |]. exists r'. auto.
Qed.

End SearchContextFacts.

(** Extra X16. The search context of a response: the primary namespace is
    that of the first result (absent when there is none); the FAQ flag is
    set exactly when some result comes from the faq partition; the
    dictionary words are exactly the non-empty ['word'] fields of the
    results from the dictionary partition, at most one per such result. *)
Theorem X16_search_context search_results :
  let context := extract_search_context search_results in
  primary_namespace context
  = option_map namespace (head (results search_results))
  /\ (has_faq_result context = true <->
      exists r, In r (results search_results) /\ namespace r = "faq")
  /\ (forall w, In w (dictionary_words context) <->
                w <> EmptyString
                /\ exists r, In r (results search_results)
                             /\ namespace r = "dictionary"
                             /\ metadata r !! "word" = Some w)
  /\ (length (dictionary_words context)
      <= count_ns "dictionary" (results search_results))%nat.
Proof.
  intros context. subst context. unfold extract_search_context.
  match goal with
  | |- context [fold_left context_step ?l ?c] =>
      destruct (fold_context_step l c) as (Hp & Hf & ws & Hw & Hlen & Hin)
  end.
  split; [| split; [| split]].
  - rewrite Hp. destruct (results search_results); reflexivity.
  - rewrite Hf.
    replace (has_faq_result _) with false
      by (destruct (results search_results); reflexivity).
    cbn [orb]. rewrite existsb_exists. split.
    + intros (r & Hr & Hd). exists r. split; [exact Hr |].
      apply bool_decide_eq_true_1 in Hd. exact Hd.
    + intros (r & Hr & Hd). exists r. split; [exact Hr |].
      apply bool_decide_eq_true_2. exact Hd.
  - intros w. rewrite Hw.
    replace (dictionary_words _) with (@nil string)
      by (destruct (results search_results); reflexivity).
    cbn [app]. apply Hin.
  - rewrite Hw.
    replace (dictionary_words _) with (@nil string)
      by (destruct (results search_results); reflexivity).
    cbn [app]. exact Hlen.
Qed.

(** * Shortening a text *)

Section ShortenFacts.
Import PyStr.

Lemma lstrip_length s : (length (lstrip s) <= length s)%nat.
Proof.
  induction s as [| c s IH]; simpl; [lia |].
  destruct (is_space c); simpl; lia.
Qed.

Lemma strip_length s : len (strip s) <= len s.
Proof.
  unfold strip, rstrip, len. rewrite length_rev.
  pose proof (lstrip_length (rev (lstrip s))) as H1.
  rewrite length_rev in H1. pose proof (lstrip_length s). lia.
Qed.

Lemma lstrip_last s c :
  last s = Some c -> is_space c = false -> last (lstrip s) = Some c.
Proof.
  induction s as [| x s IH]; intros Hlast Hc; [discriminate |].
  simpl. destruct (is_space x) eqn:Hx; [| exact Hlast].
  apply IH; [| exact Hc].
  destruct s as [| y s]; [| exact Hlast].
  inversion Hlast; subst. congruence.
Qed.

Lemma rstrip_last s c :
  last s = Some c -> is_space c = false -> rstrip s = s.
Proof.
  intros Hlast Hc. apply last_Some in Hlast. destruct Hlast as (s' & ->).
  unfold rstrip. rewrite rev_app_distr. simpl. rewrite Hc.
  simpl. rewrite rev_involutive. reflexivity.
Qed.

(** A text that ends in a dot only loses leading blanks. *)
Lemma strip_dot_ended s : last s = Some dot -> strip s = lstrip s.
Proof.
  intros H. unfold strip. apply (rstrip_last _ dot); [| reflexivity].
  apply lstrip_last; [exact H | reflexivity].
Qed.

Lemma split_dot_join text :
  split_dot text <> [] /\ join_dot (split_dot text) = text.
Proof.
  induction text as [| c text (Hne & Hjoin)]; [split; [discriminate | reflexivity] |].
  cbn [split_dot]. destruct (c =? dot)%N eqn:Hc.
  - apply N.eqb_eq in Hc. subst c. split; [discriminate |].
    destruct (split_dot text) as [| p ps]; [congruence |].
    change (join_dot ([] :: p :: ps)) with (dot :: join_dot (p :: ps)).
    rewrite Hjoin. reflexivity.
  - destruct (split_dot text) as [| p ps]; [congruence |].
    split; [discriminate |].
    destruct ps as [| p' ps]; cbn [join_dot] in *; rewrite <- Hjoin;
      reflexivity.
Qed.

(** The loop stops before the last piece when the text is too long, so what
    it has gathered is a beginning of the text that ends in a dot. *)
Lemma shorten_loop_spec max_chars text pieces : forall acc,
  pieces <> [] ->
  acc ++ join_dot pieces = text ->
  max_chars < len text ->
  let r := shorten_loop max_chars pieces acc in
  r = acc
  \/ (r `prefix_of` text /\ last r = Some dot /\ len r <= max_chars).
Proof.
  induction pieces as [| s pieces IH]; intros acc Hne Hjoin Hlong r;
    [congruence |].
  subst r. cbn [shorten_loop].
  destruct (len (acc ++ s) <? max_chars) eqn:Hfit; [| left; reflexivity].
  apply Z.ltb_lt in Hfit.
  destruct pieces as [| s' pieces].
  - cbn [join_dot] in Hjoin. rewrite Hjoin in Hfit. lia.
  - cbn [join_dot] in Hjoin.
    assert (Hjoin' : (acc ++ s ++ [dot]) ++ join_dot (s' :: pieces) = text).
    { rewrite <- Hjoin, <- !app_assoc. reflexivity. }
    destruct (IH (acc ++ s ++ [dot]) ltac:(discriminate) Hjoin' Hlong)
      as [Hr | Hr]; [| right; exact Hr].
    right. rewrite Hr. split; [| split].
    + exists (join_dot (s' :: pieces)). symmetry. exact Hjoin'.
    + rewrite app_assoc. apply last_snoc.
    + rewrite app_assoc, len_app. change (len [dot]) with 1. lia.
Qed.

(** What [shorten_text] returns for a text longer than the limit. *)
Lemma shorten_text_cut text max_chars :
  max_chars < len text ->
  exists p,
    shorten_text text max_chars = lstrip p
    /\ last p = Some dot
    /\ ((p `prefix_of` text /\ len p <= max_chars)
        \/ p = slice_to text max_chars ++ [dot; dot; dot]).
Proof.
  intros Hlong. unfold shorten_text.
  replace (len text <=? max_chars) with false
    by (symmetry; apply Z.leb_gt; exact Hlong).
  destruct (split_dot_join text) as (Hne & Hjoin).
  destruct (shorten_loop_spec max_chars text (split_dot text) []
              Hne Hjoin Hlong) as [Hr | (Hpre & Hlast & Hlen)].
  - rewrite Hr. exists (slice_to text max_chars ++ [dot; dot; dot]).
    assert (Hlast : last (slice_to text max_chars ++ [dot; dot; dot])
                    = Some dot).
    { change [dot; dot; dot] with ([dot; dot] ++ [dot]).
      rewrite app_assoc. apply last_snoc. }
    split; [apply strip_dot_ended, Hlast | split; [exact Hlast | right]].
    reflexivity.
  - destruct (shorten_loop max_chars (split_dot text) []) as [| c r] eqn:Hloop;
      [discriminate |].
    exists (c :: r).
    split; [apply strip_dot_ended, Hlast | split; [exact Hlast | left]].
    split; assumption.
Qed.

End ShortenFacts.

(** Extra X17. [shorten_text] returns a text that fits the limit as it is,
    and for a limit [max_chars >= 0] it never returns more than
    [max_chars + 3] characters. *)
Theorem X17_shorten_text_length text max_chars :
  (len text <= max_chars -> PyStr.shorten_text text max_chars = text)
  /\ (0 <= max_chars ->
      len (PyStr.shorten_text text max_chars) <= max_chars + 3).
Proof.
  split.
  - intros Hfit. unfold PyStr.shorten_text.
    replace (len text <=? max_chars) with true
      by (symmetry; apply Z.leb_le; exact Hfit).
    reflexivity.
  - intros Hmax. destruct (Z_le_gt_dec (len text) max_chars) as [Hfit | Hlong].
    + unfold PyStr.shorten_text.
      replace (len text <=? max_chars) with true
        by (symmetry; apply Z.leb_le; exact Hfit).
      lia.
    + destruct (shorten_text_cut text max_chars ltac:(lia))
        as (p & -> & _ & [(_ & Hlen) | ->]).
      * pose proof (lstrip_length p). unfold len in *. lia.
      * pose proof (lstrip_length
                      (slice_to text max_chars
                       ++ [PyStr.dot; PyStr.dot; PyStr.dot])) as H.
        rewrite length_app in H.
        pose proof (slice_to_length text max_chars Hmax) as Hs.
        unfold len in *. simpl length in H. lia.
Qed.

Lemma X17_shorten_text_length_witness :
  len (PyStr.shorten_text [72; 105; 46; 32; 66; 121; 101; 46]%N 5) <= 5 + 3.
Proof.
  apply (proj2 (X17_shorten_text_length _ 5)). lia.
Defined.



(** * Grades of the evaluator *)

Section GradeFacts.
Import Evaluator.

Lemma grade_rank_bound x : (grade_rank (_get_grade x) <= 4)%nat.
Proof.
  unfold _get_grade.
  destruct (fge x f0_8), (fge x f0_7), (fge x f0_6), (fge x f0_5);
    vm_compute; lia.
Qed.

(** The rank of a grade read off the thresholds. *)
Lemma grade_rank_thresholds x :
  ((4 <= grade_rank (_get_grade x))%nat <-> fge x f0_8 = true)
  /\ ((3 <= grade_rank (_get_grade x))%nat <-> fge x f0_7 = true)
  /\ ((2 <= grade_rank (_get_grade x))%nat <-> fge x f0_6 = true)
  /\ ((1 <= grade_rank (_get_grade x))%nat <-> fge x f0_5 = true).
Proof.
  unfold _get_grade.
  destruct (fge x f0_8) eqn:H8.
  { rewrite (fge_weaken _ _ f0_7 H8 eq_refl), (fge_weaken _ _ f0_6 H8 eq_refl),
      (fge_weaken _ _ f0_5 H8 eq_refl).
    vm_compute. intuition (try lia; try discriminate). }
  destruct (fge x f0_7) eqn:H7.
  { rewrite (fge_weaken _ _ f0_6 H7 eq_refl), (fge_weaken _ _ f0_5 H7 eq_refl).
    vm_compute. intuition (try lia; try discriminate). }
  destruct (fge x f0_6) eqn:H6.
  { rewrite (fge_weaken _ _ f0_5 H6 eq_refl).
    vm_compute. intuition (try lia; try discriminate). }
  destruct (fge x f0_5) eqn:H5; vm_compute;
    intuition (try lia; try discriminate).
Qed.

End GradeFacts.

(** Extra X19. Grades follow the score: a score that is not lower never
    gets a lower grade, a score of at least 0.8 gets the grade A, and a NaN
    score gets the grade F. *)
Theorem X19_grade_monotone x y :
  (fle x y = true ->
   (Evaluator.grade_rank (Evaluator._get_grade x)
    <= Evaluator.grade_rank (Evaluator._get_grade y))%nat)
  /\ (fge x f0_8 = true -> Evaluator._get_grade x = "A (탁월)")
  /\ (is_nan x = true -> Evaluator._get_grade x = "F (부족)").
Proof.
  split; [| split].
  - intros Hxy.
    destruct (grade_rank_thresholds x) as (Hx8 & Hx7 & Hx6 & Hx5).
    destruct (grade_rank_thresholds y) as (Hy8 & Hy7 & Hy6 & Hy5).
    pose proof (grade_rank_bound x) as Hb.
    destruct (fge x f0_8) eqn:H8.
    { pose proof (proj2 Hy8 (fge_mono _ _ _ H8 Hxy)). lia. }
    assert (~ (4 <= Evaluator.grade_rank (Evaluator._get_grade x))%nat)
      by (intros E; apply Hx8 in E; discriminate).
    destruct (fge x Evaluator.f0_7) eqn:H7.
    { pose proof (proj2 Hy7 (fge_mono _ _ _ H7 Hxy)). lia. }
    assert (~ (3 <= Evaluator.grade_rank (Evaluator._get_grade x))%nat)
      by (intros E; apply Hx7 in E; discriminate).
    destruct (fge x f0_6) eqn:H6.
    { pose proof (proj2 Hy6 (fge_mono _ _ _ H6 Hxy)). lia. }
    assert (~ (2 <= Evaluator.grade_rank (Evaluator._get_grade x))%nat)
      by (intros E; apply Hx6 in E; discriminate).
    destruct (fge x Evaluator.f0_5) eqn:H5.
    { pose proof (proj2 Hy5 (fge_mono _ _ _ H5 Hxy)). lia. }
    assert (~ (1 <= Evaluator.grade_rank (Evaluator._get_grade x))%nat)
      by (intros E; apply Hx5 in E; discriminate).
    lia.
  - intros H. unfold Evaluator._get_grade. rewrite H. reflexivity.
  - intros H. unfold Evaluator._get_grade.
    rewrite !fge_nan_l by exact H. reflexivity.
Qed.

Lemma X19_grade_monotone_witness :
  (Evaluator.grade_rank (Evaluator._get_grade Evaluator.f0_5)
   <= Evaluator.grade_rank (Evaluator._get_grade f0_9))%nat.
Proof.
  apply (proj1 (X19_grade_monotone Evaluator.f0_5 f0_9)).
  vm_compute. reflexivity.
Defined.

(** * Images for a response *)

Section ImageFacts.
Variable db : Database.

Lemma fold_add_images {A : Type} (add : list Image -> A -> list Image) l :
  (forall images x,
      add images x = images
      \/ exists image, add images x = images ++ [image] /\ known_source image) ->
  forall images,
    Forall known_source images ->
    len (fold_left add l images) <= len images + len l
    /\ Forall known_source (fold_left add l images).
Proof.
  intros Hadd. induction l as [| x l IH]; intros images Hknown; cbn [fold_left].
  - unfold len. simpl. split; [lia | exact Hknown].
  - destruct (Hadd images x) as [-> | (image & -> & Hsrc)].
    + destruct (IH images Hknown) as (Hlen & Hall).
      split; [| exact Hall]. unfold len in *. simpl length. lia.
    + destruct (IH (images ++ [image])) as (Hlen & Hall).
      { apply Forall_app. split; [exact Hknown |]. constructor; [exact Hsrc |].
        constructor. }
      split; [| exact Hall].
      rewrite len_app in Hlen. unfold len in *. simpl length in *. lia.
Qed.

Lemma add_dictionary_image_step images word :
  add_dictionary_image db images word = images
  \/ exists image,
       add_dictionary_image db images word = images ++ [image]
       /\ known_source image.
Proof.
  unfold add_dictionary_image.
  destruct (image_url_of (dictionary_by_word db word)) as [[address row] |];
    [right | left; reflexivity].
  eexists. split; [reflexivity |]. left. reflexivity.
Qed.

Lemma add_chunk_image_step images concept_id :
  add_chunk_image db images concept_id = images
  \/ exists image,
       add_chunk_image db images concept_id = images ++ [image]
       /\ known_source image.
Proof.
  unfold add_chunk_image.
  destruct (image_url_of (chunk_by_concept db concept_id))
    as [[address row] |]; [right | left; reflexivity].
  eexists. split; [reflexivity |]. right. left. reflexivity.
Qed.

Lemma add_concept_image_step images concept_id :
  add_concept_image db images concept_id = images
  \/ exists image,
       add_concept_image db images concept_id = images ++ [image]
       /\ known_source image.
Proof.
  unfold add_concept_image.
  destruct (image_url_of (concept_by_id db concept_id))
    as [[address row] |]; [right | left; reflexivity].
  eexists. split; [reflexivity |]. right. right. reflexivity.
Qed.

Lemma slice_to_len_le {A : Type} (l : list A) k :
  0 <= k -> len (slice_to l k) <= k.
Proof. intros Hk. rewrite slice_to_length by exact Hk. lia. Qed.

End ImageFacts.

(** Extra X20. [get_images] returns at most [max_count] images when
    [max_count >= 0], whatever the tables hold and whichever lookups raise;
    each image is marked dictionary, chunk or concept; and without concept
    ids a response whose primary namespace is not the dictionary gets no
    image. *)
Theorem X20_images_bound concept_ids search_context db max_count :
  (0 <= max_count ->
   len (get_images concept_ids search_context db max_count) <= max_count)
  /\ Forall known_source
       (get_images concept_ids search_context db max_count)
  /\ (concept_ids = [] ->
      primary_namespace search_context <> Some "dictionary" ->
      get_images concept_ids search_context db max_count = []).
Proof.
  unfold get_images.
  set (first_pass :=
         if bool_decide (primary_namespace search_context = Some "dictionary")
            && nonempty (dictionary_words search_context)
         then fold_left (add_dictionary_image db)
                (slice_to (dictionary_words search_context) max_count) []
         else if bool_decide (primary_namespace search_context = Some "faq")
                 && nonempty concept_ids
         then fold_left (add_chunk_image db)
                (slice_to concept_ids max_count) []
         else []).
  assert (Hfirst : (0 <= max_count -> len first_pass <= max_count)
                   /\ Forall known_source first_pass).
  { subst first_pass.
    destruct (bool_decide (primary_namespace search_context = Some "dictionary")
              && nonempty (dictionary_words search_context)).
    - destruct (fold_add_images _
                  (slice_to (dictionary_words search_context) max_count)
                  (add_dictionary_image_step db) [] (Forall_nil_2 _))
        as (Hlen & Hall).
      split; [| exact Hall]. intros Hk.
      pose proof (slice_to_len_le (dictionary_words search_context)
                    max_count Hk).
      change (len (@nil Image)) with 0 in Hlen. lia.
    - destruct (bool_decide (primary_namespace search_context = Some "faq")
                && nonempty concept_ids).
      + destruct (fold_add_images _ (slice_to concept_ids max_count)
                    (add_chunk_image_step db) [] (Forall_nil_2 _))
          as (Hlen & Hall).
        split; [| exact Hall]. intros Hk.
        pose proof (slice_to_len_le concept_ids max_count Hk).
        change (len (@nil Image)) with 0 in Hlen. lia.
      + split; [intros Hk; exact Hk | constructor]. }
  destruct Hfirst as (Hlen1 & Hall1).
  split; [| split].
  - intros Hk. specialize (Hlen1 Hk).
    destruct ((0 <? max_count - len first_pass) && nonempty concept_ids)
      eqn:Hmore; [| exact Hlen1].
    apply andb_true_iff in Hmore. destruct Hmore as (Hpos & _).
    apply Z.ltb_lt in Hpos.
    destruct (fold_add_images _
                (slice_to concept_ids (max_count - len first_pass))
                (add_concept_image_step db) first_pass Hall1) as (Hlen & _).
    pose proof (slice_to_len_le concept_ids (max_count - len first_pass)
                  ltac:(lia)).
    lia.
  - destruct ((0 <? max_count - len first_pass) && nonempty concept_ids);
      [| exact Hall1].
    apply (fold_add_images _ _ (add_concept_image_step db) first_pass Hall1).
  - intros -> Hprimary. subst first_pass.
    rewrite bool_decide_eq_false_2 by exact Hprimary.
    cbn [andb nonempty]. rewrite andb_false_r. cbn [len].
    rewrite andb_false_r. reflexivity.
Qed.

Lemma X20_images_bound_witness :
  len (get_images [1; 2]
         {| dictionary_words := ["a"; "b"]; has_faq_result := false;
            primary_namespace := Some "dictionary" |}
         {| dictionary_by_word := fun _ =>
              Return [ {[ "image_url" := Some "u" ]} ];
            chunk_by_concept := fun _ => Raise "down";
            concept_by_id := fun _ =>
              Return [ {[ "image_url" := Some "v" ]} ] |}
         1)
  <= 1.
Proof.
  apply (proj1 (X20_images_bound _ _ _ 1)). lia.
Defined.
